(** * mercari-build-training: the Go catalog service

    A shallow embedding of the two Go programs of the repository

    - [src/go/app/main.go]: the legacy backend, which keeps the items in a
      JSON document ([items.json]) and finds an item by its position;
    - the SQLite backend ([ServerImpl], [saveItem], [checkCategoryId],
      [searchItems], [getInfoById]), which keeps items and categories in two
      tables and writes them inside one [database/sql] transaction;

    together with the helpers both programs share word for word ([saveImage],
    [getImg]) and the library functions they call ([strconv.Atoi],
    [path.Join], [strings.HasSuffix], [crypto/sha256], SQLite's [LIKE]).

    Go strings are byte strings: they are [string] here (a list of 8-bit
    [ascii]); blobs are [list byte]; Go's [int] and SQLite's rowids are [Z]
    with the 64-bit range written out where the code depends on it. *)

From Stdlib Require Import ZArith Ascii String Strings.Byte List Bool Lia.
From stdpp Require Import base option list strings gmap.
Import ListNotations.

#[local] Set Warnings "-register-all".
Local Open Scope string_scope.
Local Open Scope list_scope.
Local Open Scope Z_scope.

(** ** Go values shared by both programs *)

(** [error]: the error values the programs create, pass on or wrap.
    [Errorf msg cause] is [fmt.Errorf(msg + ": %w", cause)]; the cause is
    [None] when the wrapped variable holds [nil]. *)
Inductive error : Type :=
| ErrNoRows                       (* sql.ErrNoRows *)
| ErrTxDone                       (* sql.ErrTxDone *)
| ErrDriver (msg : string)        (* a failure reported by the SQLite driver *)
| ErrOS (msg : string)            (* a failure of an os / io call *)
| ErrSyntax (input : string)      (* strconv.ErrSyntax *)
| ErrRange (input : string)       (* strconv.ErrRange *)
| ErrJSON                         (* json.Unmarshal failed *)
| Errorf (msg : string) (cause : option error).

(** [err.Error()].  For the errors of [strconv] and [encoding/json] this is
    the shape of the text only: the library quotes the input and says where
    the document is wrong.  No statement below depends on these texts. *)
Fixpoint Error (e : error) : string :=
  match e with
  | ErrNoRows => "sql: no rows in result set"
  | ErrTxDone => "sql: transaction has already been committed or rolled back"
  | ErrDriver msg => msg
  | ErrOS msg => msg
  | ErrSyntax input =>
      "strconv.Atoi: parsing " +:+ input +:+ ": invalid syntax"
  | ErrRange input =>
      "strconv.Atoi: parsing " +:+ input +:+ ": value out of range"
  | ErrJSON => "invalid character looking for beginning of value"
  | Errorf msg (Some cause) => msg +:+ ": " +:+ Error cause
  | Errorf msg None => msg +:+ ": %!w(<nil>)"
  end.

(** A Go pair [(value, err)] where exactly one side is meaningful. *)
Inductive result (A : Type) : Type :=
| Ok (a : A)
| Err (e : error).
Arguments Ok {A} a.
Arguments Err {A} e.

Record Response : Type := { Message : string }.

Record Item : Type := {
  Name : string;
  Category : string;
  ImageName : string
}.

Record Items : Type := { items_of : list Item }.

(** What an Echo handler leaves behind. *)
Inductive body : Type :=
| BodyResponse (r : Response)
| BodyItem (i : Item)
| BodyItems (l : Items)
| BodyText (s : string).

Inductive outcome : Type :=
| JSON (code : Z) (b : body)        (* c.JSON(code, b) *)
| File (content : list byte)        (* c.File(path) served the file *)
| HTTPError (code : Z) (b : body)   (* return echo.NewHTTPError(code, b) *)
| Failed (e : error)                (* return err, a plain Go error *)
| Panicked.                         (* run-time panic *)

Definition StatusOK : Z := 200.
Definition StatusBadRequest : Z := 400.
Definition StatusNotFound : Z := 404.
Definition StatusInternalServerError : Z := 500.

(** The status line the client receives.  A plain error and a panic both
    reach Echo's default error handler ([middleware.Recover] turns the panic
    into an error), which answers 500. *)
Definition status_of (o : outcome) : Z :=
  match o with
  | JSON code _ => code
  | File _ => StatusOK
  | HTTPError code _ => code
  | Failed _ => StatusInternalServerError
  | Panicked => StatusInternalServerError
  end.

Definition is_client_fault (o : outcome) : bool :=
  (400 <=? status_of o) && (status_of o <? 500).

Definition is_not_found (o : outcome) : bool := status_of o =? StatusNotFound.

(** ** strconv.Atoi *)

Definition min_int : Z := - 2 ^ 63.
Definition max_int : Z := 2 ^ 63 - 1.

Definition byte_val (c : ascii) : Z := Z.of_N (N_of_ascii c).

(** [ch -= '0'; if ch > 9 { syntax error }] *)
Definition digit_of (c : ascii) : option Z :=
  let n := byte_val c in
  if (48 <=? n) && (n <=? 57) then Some (n - 48) else None.

Fixpoint parse_digits (acc : Z) (s : string) : option Z :=
  match s with
  | EmptyString => Some acc
  | String c rest =>
      match digit_of c with
      | Some d => parse_digits (acc * 10 + d) rest
      | None => None
      end
  end.

(** An optional sign, then at least one decimal digit, and the value must fit
    Go's 64-bit [int]. *)
Definition Atoi (s : string) : result Z :=
  let '(neg, digits) :=
    match s with
    | String "-" rest => (true, rest)
    | String "+" rest => (false, rest)
    | _ => (false, s)
    end in
  match digits with
  | EmptyString => Err (ErrSyntax s)
  | _ =>
      match parse_digits 0 digits with
      | None => Err (ErrSyntax s)
      | Some n =>
          let v := if neg then - n else n in
          if (min_int <=? v) && (v <=? max_int) then Ok v else Err (ErrRange s)
      end
  end.

(** ** Slices *)

(** [s[i]] on a Go slice: [None] stands for the panic "index out of range". *)
Definition index {A : Type} (s : list A) (i : Z) : option A :=
  if (i <? 0) || (Z.of_nat (length s) <=? i) then None
  else nth_error s (Z.to_nat i).

Definition len {A : Type} (s : list A) : Z := Z.of_nat (length s).

(** ** path.Clean, path.Join, strings.HasSuffix *)

(** [strings.Split(s, "/")]: the elements between the slashes. *)
Fixpoint split_slash (s : string) : list string :=
  match s with
  | EmptyString => [EmptyString]
  | String c rest =>
      if Ascii.eqb c "/" then EmptyString :: split_slash rest
      else
        match split_slash rest with
        | e :: es => String c e :: es
        | [] => [String c EmptyString]
        end
  end.

Fixpoint join_slash (es : list string) : string :=
  match es with
  | [] => EmptyString
  | [e] => e
  | e :: rest => e +:+ "/" +:+ join_slash rest
  end.

(** One round of the loop of [path.Clean], an element at a time.  [out] is
    the output buffer as a stack of elements, the last written on top.  The
    buffer of the source holds a run of ".." elements (up to its index
    [dotdot]) followed by real elements, so "can backtrack"
    ([out.w > dotdot]) is: the top is a real element. *)
Definition clean_step (rooted : bool) (out : list string) (elem : string)
    : list string :=
  if String.eqb elem "" then out                     (* empty path element *)
  else if String.eqb elem "." then out               (* . element *)
  else if String.eqb elem ".." then
    match out with
    | top :: below =>
        if String.eqb top ".." then (if rooted then out else elem :: out)
        else below                                   (* can backtrack *)
    | [] => if rooted then out else [elem]           (* append .. element *)
    end
  else elem :: out.                                  (* real path element *)

Definition is_rooted (path : string) : bool :=
  match path with
  | String c _ => Ascii.eqb c "/"
  | EmptyString => false
  end.

Definition Clean (path : string) : string :=
  if String.eqb path "" then "."
  else
    let rooted := is_rooted path in
    let out := rev (fold_left (clean_step rooted) (split_slash path) []) in
    if rooted then "/" +:+ join_slash out
    else match out with
         | [] => "."                                 (* turn empty string into "." *)
         | _ => join_slash out
         end.

(** The loop of [path.Join]: leading empty elements are dropped, every later
    element is added after a slash. *)
Definition join_buf (buf : string) (e : string) : string :=
  if negb (String.eqb buf "") then buf +:+ "/" +:+ e
  else e.

Definition Join (elem : list string) : string :=
  if forallb (fun e => String.eqb e "") elem then ""
  else Clean (fold_left join_buf elem "").

(** [len(s) >= len(suffix) && s[len(s)-len(suffix):] == suffix] *)
Definition HasSuffix (s suffix : string) : bool :=
  let n := String.length s in
  let m := String.length suffix in
  (m <=? n)%nat && String.eqb (substring (n - m) m s) suffix.

(** ** The filesystem *)

(** Regular files by their cleaned path, relative to the working directory
    of the server.  Directories are not tracked: [os.MkdirAll] succeeds or
    fails as the environment says. *)
Abbreviation filesystem := (gmap string (list byte)).

Definition ReadFile (fs : filesystem) (name : string) : option (list byte) :=
  fs !! Clean name.

Definition WriteFile (fs : filesystem) (name : string) (data : list byte)
    : filesystem :=
  <[Clean name := data]> fs.

(** [os.Stat(name)] returns a nil error, among the regular files the model
    tracks; a directory of that name is outside it. *)
Definition Stat_ok (fs : filesystem) (name : string) : bool :=
  match ReadFile fs name with
  | Some _ => true
  | None => false
  end.

(** ** crypto/sha256 *)

Module SHA256.

Definition add32 (x y : Z) : Z := (x + y) mod 2 ^ 32.

(** [bits.RotateLeft32(x, -n)] *)
Definition rotr (n x : Z) : Z :=
  Z.lor (Z.shiftr x n) (Z.shiftl x (32 - n) mod 2 ^ 32).

(** [^x] on a [uint32] *)
Definition not32 (x : Z) : Z := Z.lxor x (2 ^ 32 - 1).

Definition is_prime (n : Z) : bool :=
  (2 <=? n) &&
  forallb (fun d => negb (n mod Z.of_nat d =? 0)) (seq 2 (Z.to_nat n - 2)).

(** The first sixty-four primes: 2, 3, 5, ..., 311. *)
Definition primes : list Z :=
  List.filter is_prime (map Z.of_nat (seq 2 310)).

(** The integer cube root, a bit at a time from bit [k - 1] down. *)
Fixpoint cbrt_bits (k : nat) (n r : Z) : Z :=
  match k with
  | O => r
  | S k' =>
      let c := r + 2 ^ Z.of_nat k' in
      cbrt_bits k' n (if c * c * c <=? n then c else r)
  end.

(** The table [_K] of the source: the first 32 bits of the fractional parts
    of the cube roots of the first sixty-four primes. *)
Definition _K : list Z :=
  Eval vm_compute in map (fun p => cbrt_bits 40 (p * 2 ^ 96) 0 mod 2 ^ 32) primes.

(** [init0 .. init7]: the same of the square roots of the first eight. *)
Definition init : list Z :=
  Eval vm_compute in map (fun p => Z.sqrt (p * 2 ^ 64) mod 2 ^ 32) (firstn 8 primes).

(** [uint32(p[j])<<24 | uint32(p[j+1])<<16 | uint32(p[j+2])<<8 | uint32(p[j+3])] *)
Definition be32 (p : list Z) (j : nat) : Z :=
  Z.lor (Z.lor (Z.lor (Z.shiftl (nth j p 0) 24) (Z.shiftl (nth (j + 1) p 0) 16))
               (Z.shiftl (nth (j + 2) p 0) 8))
        (nth (j + 3) p 0).

(** The second loop of [blockGeneric]: [w[i]] for [i] from 16 to 63. *)
Fixpoint schedule (n : nat) (w : list Z) : list Z :=
  match n with
  | O => w
  | S n' =>
      let i := length w in
      let v1 := nth (i - 2) w 0 in
      let t1 := Z.lxor (Z.lxor (rotr 17 v1) (rotr 19 v1)) (Z.shiftr v1 10) in
      let v2 := nth (i - 15) w 0 in
      let t2 := Z.lxor (Z.lxor (rotr 7 v2) (rotr 18 v2)) (Z.shiftr v2 3) in
      schedule n' (w ++ [add32 (add32 (add32 t1 (nth (i - 7) w 0)) t2)
                                (nth (i - 16) w 0)])
  end.

Record regs : Type := Regs { ra : Z; rb : Z; rc : Z; rd : Z;
                             re : Z; rf : Z; rg : Z; rh : Z }.

(** One round of the third loop of [blockGeneric]. *)
Definition round (s : regs) (kw : Z * Z) : regs :=
  let '(Regs a b c d e f g h) := s in
  let t1 :=
    add32 (add32 (add32 (add32 h
      (Z.lxor (Z.lxor (rotr 6 e) (rotr 11 e)) (rotr 25 e)))
      (Z.lxor (Z.land e f) (Z.land (not32 e) g)))
      (fst kw)) (snd kw) in
  let t2 :=
    add32 (Z.lxor (Z.lxor (rotr 2 a) (rotr 13 a)) (rotr 22 a))
          (Z.lxor (Z.lxor (Z.land a b) (Z.land a c)) (Z.land b c)) in
  Regs (add32 t1 t2) a b c (add32 d t1) e f g.

Definition block (h : regs) (p : list Z) : regs :=
  let w := schedule 48 (map (fun i => be32 p (4 * i)) (seq 0 16)) in
  let '(Regs a b c d e f g h') := fold_left round (combine _K w) h in
  Regs (add32 (ra h) a) (add32 (rb h) b) (add32 (rc h) c) (add32 (rd h) d)
       (add32 (re h) e) (add32 (rf h) f) (add32 (rg h) g) (add32 (rh h) h').

(** [for len(p) >= chunk { ...; p = p[chunk:] }] *)
Fixpoint blocks (n : nat) (h : regs) (p : list Z) : regs :=
  match n with
  | O => h
  | S n' => blocks n' (block h (firstn 64 p)) (skipn 64 p)
  end.

Definition be_bytes (k : nat) (x : Z) : list Z :=
  map (fun i => Z.shiftr x (8 * Z.of_nat (k - 1 - i)) mod 256) (seq 0 k).

(** The padding of [checkSum]: a 1 bit, 0 bits until 56 bytes mod 64, and the
    length in bits as a [uint64]. *)
Definition padding (n : Z) : list Z :=
  let t := if n mod 64 <? 56 then 56 - n mod 64 else 64 + 56 - n mod 64 in
  128 :: repeat 0 (Z.to_nat t - 1) ++ be_bytes 8 ((n * 8) mod 2 ^ 64).

Definition initial : regs :=
  Regs (nth 0 init 0) (nth 1 init 0) (nth 2 init 0) (nth 3 init 0)
       (nth 4 init 0) (nth 5 init 0) (nth 6 init 0) (nth 7 init 0).

Definition byte_of_Z (z : Z) : byte :=
  match Byte.of_N (Z.to_N z) with
  | Some b => b
  | None => x00
  end.

Definition Sum256 (data : list byte) : list byte :=
  let p := map (fun b => Z.of_N (Byte.to_N b)) data in
  let padded := p ++ padding (len p) in
  let '(Regs a b c d e f g h) :=
    blocks (length padded / 64) initial padded in
  map byte_of_Z (flat_map (be_bytes 4) [a; b; c; d; e; f; g; h]).

End SHA256.

(** [fmt.Sprintf("%x", hash)]: two lower-case hexadecimal digits per byte. *)
Definition hex_digit (n : N) : ascii :=
  match String.get (N.to_nat n) "0123456789abcdef" with
  | Some c => c
  | None => "0"%char
  end.

Fixpoint hex (bs : list byte) : string :=
  match bs with
  | [] => EmptyString
  | b :: rest =>
      String (hex_digit (Byte.to_N b / 16))
        (String (hex_digit (Byte.to_N b mod 16)) (hex rest))
  end.

(** ** The image store: [saveImage] and [getImg]

    Both programs carry the same two functions, character for character. *)

Definition ImgDir : string := "images".

(** What the environment answers to each call of [saveImage] that can fail:
    [None] is a nil error.  A failing [os.WriteFile] has written the first
    [n] bytes. *)
Record image_io : Type := {
  open_err : option string;            (* image.Open() *)
  read_err : option string;            (* io.ReadAll(img) *)
  mkdir_err : option string;           (* os.MkdirAll("./images", 0750) *)
  create_err : option string;          (* os.Create(imagePath) *)
  write_err : option (string * nat)    (* os.WriteFile(imagePath, source, 0644) *)
}.

Definition io_ok : image_io :=
  {| open_err := None; read_err := None; mkdir_err := None;
     create_err := None; write_err := None |}.

Definition fileName_of (hash : list byte) : string := hex hash +:+ ".jpg".

Definition imagePath_of (fileName : string) : string := "./images/" +:+ fileName.

(** [image] is the content of the uploaded part. *)
Definition saveImage (io : image_io) (fs : filesystem) (image : list byte)
    : filesystem * (string * option error) :=
  match open_err io with
  | Some why => (fs, ("", Some (ErrOS why)))
  | None =>
  match read_err io with
  | Some why => (fs, ("", Some (ErrOS why)))
  | None =>
  let source := image in
  let hash := SHA256.Sum256 source in
  match mkdir_err io with
  | Some why => (fs, ("", Some (ErrOS why)))
  | None =>
  let fileName := fileName_of hash in
  let imagePath := imagePath_of fileName in
  match create_err io with
  | Some why => (fs, ("", Some (ErrOS why)))
  | None =>
  let fs := WriteFile fs imagePath [] in               (* os.Create truncates *)
  match write_err io with
  | Some (why, n) =>
      (WriteFile fs imagePath (firstn n source), ("", Some (ErrOS why)))
  | None => (WriteFile fs imagePath source, (fileName, None))
  end end end end end.

(** [c.File(file)]: the file, or [echo.ErrNotFound]. *)
Definition serve_file (fs : filesystem) (file : string) : outcome :=
  match ReadFile fs file with
  | Some content => File content
  | None => HTTPError StatusNotFound (BodyText "Not Found")
  end.

Definition getImg (fs : filesystem) (imageFilename : string) : outcome :=
  let imgPath := Join [ImgDir; imageFilename] in
  if negb (HasSuffix imgPath ".jpg") then
    JSON StatusBadRequest
         (BodyResponse {| Message := "Image path does not end with .jpg" |})
  else
    let imgPath :=
      if Stat_ok fs imgPath then imgPath else Join [ImgDir; "default.jpg"] in
    serve_file fs imgPath.

(** ** SQLite's LIKE *)

(** The default [LIKE] of SQLite, which [searchItems] calls with no [ESCAPE]
    clause, as [likeFunc] and [patternCompare] compute it.  Both operands
    are read as NUL-terminated strings, a character at a time with
    [sqlite3Utf8Read]; [%] stands for any run of characters, [_] for one
    character, and the ASCII letters compare without case. *)
Definition lower (c : ascii) : ascii :=
  let n := byte_val c in
  if (65 <=? n) && (n <=? 90) then ascii_of_N (Z.to_N (n + 32)) else c.

Definition eqb_nocase (c d : ascii) : bool := Ascii.eqb (lower c) (lower d).

(** A Go string as a C string: the bytes before the first NUL. *)
Fixpoint c_string (s : string) : string :=
  match s with
  | EmptyString => EmptyString
  | String c rest =>
      if byte_val c =? 0 then EmptyString else String c (c_string rest)
  end.

(** [sqlite3Utf8Trans1[b - 0xc0]] for a lead byte [b] from 0xc0 up. *)
Definition sqlite3Utf8Trans1 (b : Z) : Z :=
  if b <? 224 then b - 192
  else if b <? 240 then b - 224
  else if b <? 248 then b - 240
  else if b <? 252 then b - 248
  else if b <? 254 then b - 252
  else 0.

(** The loop of [sqlite3Utf8Read] over the continuation bytes (those with
    [b & 0xc0 == 0x80]): [c = (c<<6) + (0x3f & b)] on a 32-bit unsigned
    [c]. *)
Fixpoint utf8_continue (c : Z) (s : string) : Z * string :=
  match s with
  | String b rest =>
      if (128 <=? byte_val b) && (byte_val b <? 192)
      then utf8_continue ((c * 64 + byte_val b mod 64) mod 2 ^ 32) rest
      else (c, s)
  | EmptyString => (c, s)
  end.

(** [sqlite3Utf8Read]: the next character of a C string and what follows
    it; 0 at the end of the string. *)
Definition sqlite3Utf8Read (s : string) : Z * string :=
  match s with
  | EmptyString => (0, EmptyString)
  | String b rest =>
      if byte_val b <? 192 then (byte_val b, rest)
      else
        let '(c, rest') := utf8_continue (sqlite3Utf8Trans1 (byte_val b)) rest in
        (if (c <? 128)
            || (Z.land c 4294965248 =? 55296)     (* (c&0xFFFFF800)==0xD800 *)
            || (Z.land c 4294967294 =? 65534)     (* (c&0xFFFFFFFE)==0xFFFE *)
         then 65533 else c,
         rest')
  end.

(** The characters of a C string, each with what follows it.  Every read
    takes a byte at least, so [String.length s] reads exhaust [s]. *)
Fixpoint runes_upto (n : nat) (s : string) : list (Z * string) :=
  match n, s with
  | O, _ => []
  | _, EmptyString => []
  | S n', _ =>
      let '(c, rest) := sqlite3Utf8Read s in (c, rest) :: runes_upto n' rest
  end.

Definition runes (s : string) : list (Z * string) := runes_upto (String.length s) s.

Inductive like_result : Type :=
| SQLITE_MATCH
| SQLITE_NOMATCH
| SQLITE_NOWILDCARDMATCH.

Definition matchAll : Z := 37.   (* '%' *)
Definition matchOne : Z := 95.   (* '_' *)

(** [sqlite3Tolower] and [sqlite3Toupper], which look at the low byte. *)
Definition sqlite3Tolower (x : Z) : Z :=
  let b := x mod 256 in if (65 <=? b) && (b <=? 90) then b + 32 else b.

Definition sqlite3Toupper (x : Z) : Z :=
  let b := x mod 256 in if (97 <=? b) && (b <=? 122) then b - 32 else b.

(** The search behind a [%] for a pattern character [c] below 0x80:
    [strcspn] to the next byte that is [c] in either case, then the rest of
    the pattern [k] on what follows; again from there while that fails. *)
Definition scan_bytes (c : Z) (k : string -> like_result) : string -> like_result :=
  fix scan (s : string) : like_result :=
    match s with
    | EmptyString => SQLITE_NOWILDCARDMATCH
    | String b rest =>
        if (byte_val b =? sqlite3Toupper c) || (byte_val b =? sqlite3Tolower c) then
          match k rest with
          | SQLITE_NOMATCH => scan rest
          | bMatch => bMatch
          end
        else scan rest
    end.

(** The same for a pattern character from 0x80 up, a character at a time. *)
Definition scan_runes (c : Z) (k : string -> like_result) (s : string) : like_result :=
  (fix scan (l : list (Z * string)) : like_result :=
     match l with
     | [] => SQLITE_NOWILDCARDMATCH
     | (c2, rest) :: l' =>
         if c2 =? c then
           match k rest with
           | SQLITE_NOMATCH => scan l'
           | bMatch => bMatch
           end
         else scan l'
     end) (runes s).

(** One pattern character [c] against the next character of the string. *)
Definition compare_one (c : Z) (k : string -> like_result) (s : string) : like_result :=
  let '(c2, rest) := sqlite3Utf8Read s in
  if c =? c2 then k rest
  else if (sqlite3Tolower c =? sqlite3Tolower c2) && (c <? 128) && (c2 <? 128)
  then k rest
  else if (c =? matchOne) && negb (c2 =? 0) then k rest
  else SQLITE_NOMATCH.

(** [patternCompare] on the characters [pat] of the pattern; [after_all]
    says that a [%] has just been read. *)
Fixpoint patternCompare (after_all : bool) (pat : list Z) {struct pat}
    : string -> like_result :=
  match pat with
  | [] =>
      fun s =>
        if after_all then SQLITE_MATCH
        else if String.eqb s "" then SQLITE_MATCH else SQLITE_NOMATCH
  | c :: pat' =>
      if c =? matchAll then patternCompare true pat'
      else if after_all then
        if c =? matchOne then
          fun s =>
            match s with
            | EmptyString => SQLITE_NOWILDCARDMATCH
            | _ => patternCompare true pat' (snd (sqlite3Utf8Read s))
            end
        else if c <? 128 then scan_bytes c (patternCompare false pat')
        else scan_runes c (patternCompare false pat')
      else compare_one c (patternCompare false pat')
  end.

(** [zA LIKE zB]: [pattern] is [zB]. *)
Definition like (pattern : string) (s : string) : bool :=
  match patternCompare false (map fst (runes (c_string pattern))) (c_string s) with
  | SQLITE_MATCH => true
  | _ => false
  end.

(** [likeFunc] refuses a pattern of more bytes than this with the error
    "LIKE or GLOB pattern too complex". *)
Definition SQLITE_MAX_LIKE_PATTERN_LENGTH : Z := 50000.

(** ** encoding/json on strings *)

(** [lo <= c && c <= hi] on bytes. *)
Definition between (lo hi : Z) (c : ascii) : bool :=
  (lo <=? byte_val c) && (byte_val c <=? hi).

(** The second byte a lead byte accepts ([acceptRanges] of [unicode/utf8]). *)
Definition second_ok (c1 c2 : ascii) : bool :=
  let b := byte_val c1 in
  if b =? 224 then between 160 191 c2          (* E0: A0..BF *)
  else if b =? 237 then between 128 159 c2     (* ED: 80..9F *)
  else if b =? 240 then between 144 191 c2     (* F0: 90..BF *)
  else if b =? 244 then between 128 143 c2     (* F4: 80..8F *)
  else between 128 191 c2.

(** The UTF-8 encoding of U+FFFD. *)
Definition replacement (rest : string) : string :=
  String (ascii_of_N 239) (String (ascii_of_N 191) (String (ascii_of_N 189) rest)).

(** A string after [json.Marshal] and [json.Unmarshal]: the encoder walks
    the string with [utf8.DecodeRuneInString] and writes U+FFFD for every
    byte that does not start a valid sequence; everything else comes back
    byte for byte. *)
Fixpoint json_string (s : string) : string :=
  match s with
  | EmptyString => EmptyString
  | String c1 r1 =>
      if between 0 127 c1 then String c1 (json_string r1)
      else
        match r1 with
        | String c2 r2 =>
            if between 194 223 c1 && second_ok c1 c2 then
              String c1 (String c2 (json_string r2))
            else
              match r2 with
              | String c3 r3 =>
                  if between 224 239 c1 && second_ok c1 c2 && between 128 191 c3 then
                    String c1 (String c2 (String c3 (json_string r3)))
                  else
                    match r3 with
                    | String c4 r4 =>
                        if between 240 244 c1 && second_ok c1 c2
                           && between 128 191 c3 && between 128 191 c4 then
                          String c1 (String c2 (String c3 (String c4 (json_string r4))))
                        else replacement (json_string r1)
                    | EmptyString => replacement (json_string r1)
                    end
              | EmptyString => replacement (json_string r1)
              end
        | EmptyString => replacement (json_string r1)
        end
  end.

Definition json_item (i : Item) : Item :=
  {| Name := json_string (Name i);
     Category := json_string (Category i);
     ImageName := json_string (ImageName i) |}.

(** ** The legacy JSON-file backend (src/go/app/main.go) *)

Module Legacy.

(** The content of [items.json] as [os.ReadFile] and [json.Unmarshal] see
    it: absent or unreadable, not a JSON document of the expected shape, or
    the ordered list of item records it encodes. *)
Inductive items_file : Type :=
| Unreadable (why : string)
| Malformed
| Stored (l : list Item).

Definition readItems (f : items_file) : result Items :=
  match f with
  | Unreadable why => Err (Errorf "error while reading file" (Some (ErrOS why)))
  | Malformed => Err (Errorf "error while unmarshaling file" (Some ErrJSON))
  | Stored l => Ok {| items_of := l |}
  end.

(** What [os.WriteFile(ItemsPath, newData, 0644)] does: it writes all the
    data; or it cannot open the file, which stays as it was; or it fails
    after truncating the file, which is then left with a proper prefix of
    the document, not a JSON value. *)
Inductive write_outcome : Type :=
| Written
| NotOpened (why : string)
| Interrupted (why : string).

(** [saveItem]: read, append, write back.  The list is written as JSON and
    later read as JSON, so every string comes back as [json_string] of
    itself. *)
Definition saveItem (w : write_outcome) (f : items_file)
    (name category fileName : string) : items_file * option error :=
  let item := {| Name := name; Category := category; ImageName := fileName |} in
  match readItems f with
  | Err e => (f, Some (Errorf "error while reading or unmarshaling file" (Some e)))
  | Ok items =>
      let items' := items_of items ++ [item] in
      match w with
      | NotOpened why =>
          (f, Some (Errorf "error while writing file" (Some (ErrOS why))))
      | Interrupted why =>
          (Malformed, Some (Errorf "error while writing file" (Some (ErrOS why))))
      | Written => (Stored (map json_item items'), None)
      end
  end.

Definition item_received (name : string) : outcome :=
  JSON StatusOK (BodyResponse {| Message := "item received: " +:+ name |}).

(** [addItem]: [image] is the part of the form named "image", when there is
    one.  The filesystem and [items.json] afterwards, and the answer. *)
Definition addItem (io : image_io) (w : write_outcome)
    (fs : filesystem) (f : items_file)
    (name category : string) (image : option (list byte))
    : filesystem * items_file * outcome :=
  match image with
  | None => (fs, f, Failed (ErrOS "http: no such file"))
  | Some bytes =>
      match saveImage io fs bytes with
      | (fs', (_, Some err)) =>
          (fs', f, JSON StatusInternalServerError
                        (BodyResponse {| Message := Error err |}))
      | (fs', (fileName, None)) =>
          match saveItem w f name category fileName with
          | (f', Some err) =>
              (fs', f', JSON StatusInternalServerError
                             (BodyResponse {| Message := Error err |}))
          | (f', None) => (fs', f', item_received name)
          end
      end
  end.

Definition getItems (f : items_file) : outcome :=
  match readItems f with
  | Err e =>
      JSON StatusInternalServerError (BodyResponse {| Message := Error e |})
  | Ok items => JSON StatusOK (BodyItems items)
  end.

(** [getInfo] once [strconv.Atoi] has succeeded with [itemId]. *)
Definition getInfo_at (f : items_file) (itemId : Z) : outcome :=
  match readItems f with
  | Err e => Failed (Errorf "error while reading file" (Some e))
  | Ok items =>
      if (itemId <=? 0) || (itemId >? len (items_of items))
      then Failed (Errorf "invalid ID" None)
      else
        match index (items_of items) (itemId - 1) with
        | Some item => JSON StatusOK (BodyItem item)
        | None => Panicked
        end
  end.

Definition getInfo (f : items_file) (id : string) : outcome :=
  match Atoi id with
  | Err e => Failed (Errorf "invalid ID" (Some e))
  | Ok itemId => getInfo_at f itemId
  end.

End Legacy.


(** ** The SQLite backend *)

Module Sqlite.

(** Modelled from the spec: the declarations of the two tables are not among
    the sources.  The spec gives
    [categories(id PRIMARY KEY, name TEXT)] and
    [items(id PRIMARY KEY, name TEXT, image_name TEXT, category_id)];
    a row is what the program binds to its [INSERT] statements, with the
    rowid SQLite assigns.  Neither table constrains [name]. *)
Record category_row : Type := {
  category_id : Z;
  category_name : string
}.

Record item_row : Type := {
  item_id : Z;
  item_name : string;
  item_image_name : string;
  item_category_id : Z
}.

(** The committed content of the database file, rows in rowid order. *)
Record database : Type := {
  categories : list category_row;
  items : list item_row
}.

Definition empty_db : database := {| categories := []; items := [] |}.

(** The rowid of an inserted row: 1 in an empty table, else one more than
    the largest rowid in it.  This is what SQLite does while the largest
    rowid is below 9223372036854775807; from there it tries unused rowids at
    random, which no function of the table can follow: the statements that
    name the value of a new rowid bound the rowids of the table. *)
Definition next_rowid (ids : list Z) : Z :=
  match ids with
  | [] => 1
  | i :: rest => fold_right Z.max i rest + 1
  end.

(** A [*sql.Tx]: the content as the transaction sees it, and whether the
    transaction has been committed or rolled back. *)
Record Tx : Type := {
  pending : database;
  done : bool
}.

(** What the driver answers to each database call of [saveItem] that can
    fail ([None]: no error). *)
Record faults : Type := {
  begin_fault : option string;          (* db.DB.Begin() *)
  find_fault : option string;           (* rows.Scan of findCategoryId *)
  new_category_fault : option string;   (* tx.Exec(makeNewCategory, ...) *)
  last_id_fault : option string;        (* result.LastInsertId() *)
  insert_fault : option string;         (* tx.Exec(insertItem, ...) *)
  commit_fault : option string;         (* tx.Commit() *)
  rollback_fault : option string        (* tx.Rollback() on a live transaction *)
}.

Definition no_faults : faults :=
  {| begin_fault := None; find_fault := None; new_category_fault := None;
     last_id_fault := None; insert_fault := None; commit_fault := None;
     rollback_fault := None |}.

Definition driver (fault : option string) : option error :=
  match fault with
  | Some why => Some (ErrDriver why)
  | None => None
  end.

Inductive log_line : Type :=
| LogError (msg : string) (e : error)    (* log.Errorf(msg + ": %w", e) *)
| LogPrint (msg : string) (e : error).   (* log.Printf(msg + ": %w", e) *)

Definition Begin (fault : option string) (db : database) : result Tx :=
  match fault with
  | Some why => Err (ErrDriver why)
  | None => Ok {| pending := db; done := false |}
  end.

(** [tx.Commit()]: the transaction is done whatever the driver answers; the
    pending content becomes the committed one only when it answers nil. *)
Definition Commit (fault : option string) (db : database) (tx : Tx)
    : database * Tx * option error :=
  if done tx then (db, tx, Some ErrTxDone)
  else
    let tx' := {| pending := pending tx; done := true |} in
    match fault with
    | Some why => (db, tx', Some (ErrDriver why))
    | None => (pending tx, tx', None)
    end.

(** [tx.Rollback()]: the pending content is dropped. *)
Definition Rollback (fault : option string) (tx : Tx) : Tx * option error :=
  if done tx then (tx, Some ErrTxDone)
  else ({| pending := pending tx; done := true |}, driver fault).

(** [tx.QueryRow("SELECT id FROM categories WHERE name = ?", category)]
    followed by [rows.Scan(&categoryId)]: the first row of that name. *)
Definition findCategoryId (fault : option string) (tx : Tx) (category : string)
    : result Z :=
  if done tx then Err ErrTxDone
  else
    match fault with
    | Some why => Err (ErrDriver why)
    | None =>
        match List.find (fun r => String.eqb (category_name r) category)
                        (categories (pending tx)) with
        | Some r => Ok (category_id r)
        | None => Err ErrNoRows
        end
    end.

(** [tx.Exec("INSERT INTO categories (name) values (?)", category)]: the
    transaction afterwards and the rowid of the new row. *)
Definition makeNewCategory (fault : option string) (tx : Tx) (category : string)
    : Tx * result Z :=
  if done tx then (tx, Err ErrTxDone)
  else
    match fault with
    | Some why => (tx, Err (ErrDriver why))
    | None =>
        let db := pending tx in
        let id := next_rowid (map category_id (categories db)) in
        ({| pending :=
              {| categories :=
                   categories db ++ [{| category_id := id; category_name := category |}];
                 items := items db |};
            done := false |},
         Ok id)
    end.

(** [tx.Exec("INSERT INTO items (name, image_name, category_id) VALUES (?, ?, ?)", ...)] *)
Definition insertItem (fault : option string) (tx : Tx)
    (name fileName : string) (categoryId : Z) : Tx * option error :=
  if done tx then (tx, Some ErrTxDone)
  else
    match fault with
    | Some why => (tx, Some (ErrDriver why))
    | None =>
        let db := pending tx in
        let id := next_rowid (map item_id (items db)) in
        ({| pending :=
              {| categories := categories db;
                 items :=
                   items db ++ [{| item_id := id; item_name := name;
                                   item_image_name := fileName;
                                   item_category_id := categoryId |}] |};
            done := false |},
         None)
    end.

(** [checkCategoryId]: the transaction afterwards, what was logged, and the
    Go pair [(categoryId, err)]. *)
Definition checkCategoryId (f : faults) (category : string) (tx : Tx)
    : Tx * list log_line * (Z * option error) :=
  match findCategoryId (find_fault f) tx category with
  | Ok categoryId => (tx, [], (categoryId, None))
  | Err ErrNoRows =>
      match makeNewCategory (new_category_fault f) tx category with
      | (tx', Err err) =>
          (tx', [LogError "error while inserting new category" err], (0, Some err))
      | (tx', Ok newId) =>
          match driver (last_id_fault f) with
          | Some err =>
              (tx', [LogError "error while getting new category ID" err], (0, Some err))
          | None => (tx', [], (newId, None))
          end
      end
  | Err err =>
      (tx, [LogError "error while scanning category ID" err], (0, Some err))
  end.

(** The body of [saveItem] between the [defer] and the return: the committed
    content, the transaction, the log and the returned error. *)
Definition saveItem_body (f : faults) (db : database) (tx : Tx)
    (name category fileName : string)
    : database * Tx * list log_line * option error :=
  match checkCategoryId f category tx with
  | (tx, logs, (_, Some err)) =>
      (db, tx, logs, Some (Errorf "error while searching for category id" (Some err)))
  | (tx, logs, (categoryId, None)) =>
      match insertItem (insert_fault f) tx name fileName categoryId with
      | (tx, Some err) =>
          (db, tx, logs, Some (Errorf "error while adding a new item" (Some err)))
      | (tx, None) =>
          match Commit (commit_fault f) db tx with
          | (db', tx, Some err) =>
              (db', tx, logs,
               Some (Errorf "error while commiting transaction" (Some err)))
          | (db', tx, None) => (db', tx, logs, None)
          end
      end
  end.

(** [saveItem]: the committed content afterwards, the log, and the error. *)
Definition saveItem (f : faults) (db : database) (name category fileName : string)
    : database * list log_line * option error :=
  match Begin (begin_fault f) db with
  | Err err => (db, [], Some (Errorf "error while beginning transaction" (Some err)))
  | Ok tx =>
      let '(db', tx', logs, ret) := saveItem_body f db tx name category fileName in
      (* the deferred function *)
      match Rollback (rollback_fault f) tx' with
      | (_, Some err) =>
          (db', logs ++ [LogPrint "error while rolling back transaction" err], ret)
      | (_, None) => (db', logs, ret)
      end
  end.

(** [items JOIN categories ON items.category_id = categories.id] *)
Definition joined (db : database) : list (item_row * category_row) :=
  flat_map
    (fun i =>
       map (pair i)
           (List.filter (fun c => item_category_id i =? category_id c)
                        (categories db)))
    (items db).

(** [ScanRowsToItems] over rows of [items.name, categories.name]. *)
Definition ScanRowsToItems (scan_fault : option string)
    (rows : list (item_row * category_row)) : result Items :=
  match rows, scan_fault with
  | _ :: _, Some why => Err (ErrDriver why)
  | _, _ =>
      Ok {| items_of :=
              map (fun r => {| Name := item_name (fst r);
                               Category := category_name (snd r);
                               ImageName := "" |}) rows |}
  end.

Definition readItems (query_fault scan_fault : option string) (db : database)
    : result Items :=
  match query_fault with
  | Some why => Err (ErrDriver why)
  | None => ScanRowsToItems scan_fault (joined db)
  end.

Definition getItems (query_fault scan_fault : option string) (db : database)
    : outcome :=
  match readItems query_fault scan_fault db with
  | Err _ =>
      HTTPError StatusInternalServerError
        (BodyResponse {| Message := "Error while reading item information" |})
  | Ok items => JSON StatusOK (BodyItems items)
  end.

Definition searchItems (query_fault scan_fault : option string) (db : database)
    (keyword : string) : outcome :=
  let key := "%" +:+ keyword +:+ "%" in
  match query_fault with
  | Some _ =>
      HTTPError StatusInternalServerError
        (BodyResponse {| Message := "Error while searching with keyword" |})
  | None =>
      (* A pattern that is too long fails the first step of the statement:
         [rows.Next()] is false at once, and [ScanRowsToItems] does not
         look at [rows.Err()]. *)
      let rows :=
        if SQLITE_MAX_LIKE_PATTERN_LENGTH <? Z.of_nat (String.length key) then []
        else List.filter (fun r => like key (item_name (fst r))) (joined db) in
      match ScanRowsToItems scan_fault rows with
      | Err _ =>
          HTTPError StatusInternalServerError
            (BodyResponse {| Message := "Error while scanning rows to items" |})
      | Ok resultItems => JSON StatusOK (BodyItems resultItems)
      end
  end.

(** [db.DB.QueryRow(selectById, itemId)] and [rows.Scan]: the first row of
    the join whose item has that id. *)
Definition selectById (fault : option string) (db : database) (itemId : Z)
    : result Item :=
  match fault with
  | Some why => Err (ErrDriver why)
  | None =>
      match List.find (fun r => item_id (fst r) =? itemId) (joined db) with
      | Some r =>
          Ok {| Name := item_name (fst r);
                Category := category_name (snd r);
                ImageName := item_image_name (fst r) |}
      | None => Err ErrNoRows
      end
  end.

Definition getInfoById (fault : option string) (db : database) (id : string)
    : outcome :=
  match Atoi id with
  | Err _ =>
      HTTPError StatusInternalServerError (BodyResponse {| Message := "Invalid ID" |})
  | Ok itemId =>
      match selectById fault db itemId with
      | Err _ =>
          HTTPError StatusInternalServerError
            (BodyResponse {| Message := "Error while searching item with ID" |})
      | Ok item => JSON StatusOK (BodyItem item)
      end
  end.

(** [addItem]: [image] is the part of the form named "image", when there is
    one.  The filesystem and the committed content afterwards, and the
    answer. *)
Definition addItem (io : image_io) (f : faults)
    (fs : filesystem) (db : database)
    (name category : string) (image : option (list byte))
    : filesystem * database * outcome :=
  match image with
  | None =>
      (fs, db, HTTPError StatusBadRequest
                 (BodyResponse {| Message := "Error while retrieving image" |}))
  | Some bytes =>
      match saveImage io fs bytes with
      | (fs', (_, Some _)) =>
          (fs', db, HTTPError StatusInternalServerError
                      (BodyResponse {| Message := "Error while hashing and saving image" |}))
      | (fs', (fileName, None)) =>
          match saveItem f db name category fileName with
          | (db', _, Some _) =>
              (fs', db', HTTPError StatusInternalServerError
                           (BodyResponse {| Message := "Error while saving item information" |}))
          | (db', _, None) =>
              (fs', db', JSON StatusOK
                           (BodyResponse {| Message := "item received: " +:+ name |}))
          end
      end
  end.

End Sqlite.

(** ** Vocabulary of the statements *)

(** The three components of what [Sqlite.saveItem] yields. *)
Definition committed (r : Sqlite.database * list Sqlite.log_line * option error)
    : Sqlite.database := fst (fst r).
Definition logged (r : Sqlite.database * list Sqlite.log_line * option error)
    : list Sqlite.log_line := snd (fst r).
Definition returned (r : Sqlite.database * list Sqlite.log_line * option error)
    : option error := snd r.

(** The same environment, except for what [tx.Rollback()] answers. *)
Definition with_rollback (r : option string) (f : Sqlite.faults) : Sqlite.faults :=
  {| Sqlite.begin_fault := Sqlite.begin_fault f;
     Sqlite.find_fault := Sqlite.find_fault f;
     Sqlite.new_category_fault := Sqlite.new_category_fault f;
     Sqlite.last_id_fault := Sqlite.last_id_fault f;
     Sqlite.insert_fault := Sqlite.insert_fault f;
     Sqlite.commit_fault := Sqlite.commit_fault f;
     Sqlite.rollback_fault := r |}.

(** A live transaction on the committed content [db], as [Begin] makes it. *)
Definition begun (db : Sqlite.database) : Sqlite.Tx :=
  {| Sqlite.pending := db; Sqlite.done := false |}.

(** The driver answered nil. *)
Definition nil_error (fault : option string) : bool :=
  match fault with
  | Some _ => false
  | None => true
  end.

(** Every call of the driver that [saveItem] makes on [db] for [category]
    answers nil.  The INSERT of a category and its [LastInsertId] are
    called only when no row of that name is found. *)
Definition steps_succeed (f : Sqlite.faults) (db : Sqlite.database)
    (category : string) : bool :=
  nil_error (Sqlite.begin_fault f)
  && (nil_error (Sqlite.find_fault f)
      && match List.find (fun r => String.eqb (Sqlite.category_name r) category)
                         (Sqlite.categories db) with
         | Some _ => true
         | None =>
             nil_error (Sqlite.new_category_fault f)
             && nil_error (Sqlite.last_id_fault f)
         end)
  && nil_error (Sqlite.insert_fault f)
  && nil_error (Sqlite.commit_fault f).

(** Every item row names the id of a category row. *)
Definition valid_refs (db : Sqlite.database) : bool :=
  forallb
    (fun i =>
       existsb (fun c => Sqlite.item_category_id i =? Sqlite.category_id c)
               (Sqlite.categories db))
    (Sqlite.items db).

(** How many category rows carry the name [c]. *)
Definition count_named (c : string) (rows : list Sqlite.category_row) : nat :=
  length (List.filter (fun r => String.eqb (Sqlite.category_name r) c) rows).

(** What the two primary keys and sequential use of [saveItem] maintain:
    distinct ids in both tables, valid references, and one row per category
    name. *)
Definition well_formed (db : Sqlite.database) : Prop :=
  NoDup (map Sqlite.category_id (Sqlite.categories db)) /\
  NoDup (map Sqlite.item_id (Sqlite.items db)) /\
  valid_refs db = true /\
  forall c, (count_named c (Sqlite.categories db) <= 1)%nat.

(** One call of [saveItem]: what the driver answers and the arguments. *)
Record request : Type := {
  req_faults : Sqlite.faults;
  req_name : string;
  req_category : string;
  req_fileName : string
}.

(** The committed content after a sequence of calls of [saveItem]. *)
Definition run (reqs : list request) (db : Sqlite.database) : Sqlite.database :=
  fold_left
    (fun db q =>
       committed (Sqlite.saveItem (req_faults q) db (req_name q) (req_category q)
                                  (req_fileName q)))
    reqs db.

(** The list view of a joined row. *)
Definition list_view (r : Sqlite.item_row * Sqlite.category_row) : Item :=
  {| Name := Sqlite.item_name (fst r);
     Category := Sqlite.category_name (snd r);
     ImageName := "" |}.

(** [strings.Contains(s, substr)], byte for byte. *)
Fixpoint HasPrefix (s prefix : string) {struct prefix} : bool :=
  match prefix, s with
  | EmptyString, _ => true
  | String c prefix', String d s' => Ascii.eqb c d && HasPrefix s' prefix'
  | String _ _, EmptyString => false
  end.

Fixpoint Contains (s substr : string) : bool :=
  HasPrefix s substr ||
  match s with
  | EmptyString => false
  | String _ s' => Contains s' substr
  end.

(** The same with the ASCII letters compared without case. *)
Fixpoint HasPrefix_nocase (s prefix : string) {struct prefix} : bool :=
  match prefix, s with
  | EmptyString, _ => true
  | String c prefix', String d s' => eqb_nocase c d && HasPrefix_nocase s' prefix'
  | String _ _, EmptyString => false
  end.

Fixpoint Contains_nocase (s substr : string) : bool :=
  HasPrefix_nocase s substr ||
  match s with
  | EmptyString => false
  | String _ s' => Contains_nocase s' substr
  end.

(** Every byte of [s] is below 128. *)
Fixpoint ascii_only (s : string) : bool :=
  match s with
  | EmptyString => true
  | String c s' => between 0 127 c && ascii_only s'
  end.

(** An item record as [json.Unmarshal] yields it: its strings are what
    [json_string] leaves unchanged. *)
Definition decoded (i : Item) : Prop := json_item i = i.

(** No byte of [r] is a slash: [r] is one path element. *)
Fixpoint no_slash (r : string) : bool :=
  match r with
  | EmptyString => true
  | String c r' => negb (Ascii.eqb c "/") && no_slash r'
  end.

(** [strings.ToLower] on ASCII letters. *)
Fixpoint ToLower (s : string) : string :=
  match s with
  | EmptyString => EmptyString
  | String c s' => String (lower c) (ToLower s')
  end.

(** The answer of [searchItems] that lists the rows [rows] of the join. *)
Definition found (rows : list (Sqlite.item_row * Sqlite.category_row)) : outcome :=
  JSON StatusOK (BodyItems {| items_of := map list_view rows |}).

(** Every byte of [s] is ASCII and not NUL. *)
Fixpoint ascii_text (s : string) : bool :=
  match s with
  | EmptyString => true
  | String c s' => (1 <=? byte_val c) && (byte_val c <=? 127) && ascii_text s'
  end.

(** An ASCII byte that is neither NUL nor a wildcard of [LIKE]. *)
Definition plain_byte (a : ascii) : bool :=
  (1 <=? byte_val a) && (byte_val a <=? 127)
  && negb (byte_val a =? matchAll) && negb (byte_val a =? matchOne).

(** The three tests of [compare_one] in one. *)
Definition char_matches (c c2 : Z) : bool :=
  (c =? c2)
  || ((sqlite3Tolower c =? sqlite3Tolower c2) && (c <? 128) && (c2 <? 128))
  || ((c =? matchOne) && negb (c2 =? 0)).

(** A keyword of ASCII bytes, none of them NUL nor a wildcard of [LIKE]. *)
Fixpoint plain_keyword (k : string) : bool :=
  match k with
  | EmptyString => true
  | String c k' =>
      (1 <=? byte_val c) && (byte_val c <=? 127)
      && negb (byte_val c =? matchAll) && negb (byte_val c =? matchOne)
      && plain_keyword k'
  end.

(** The bytes of a string as numbers. *)
Fixpoint codes (s : string) : list Z :=
  match s with
  | EmptyString => []
  | String c s' => byte_val c :: codes s'
  end.

(** Sample data. *)
Definition jacket : Item :=
  {| Name := "jacket"; Category := "fashion"; ImageName := "abc.jpg" |}.
Definition scarf : Item :=
  {| Name := "scarf"; Category := "fashion"; ImageName := "def.jpg" |}.

Definition sample_fs : filesystem :=
  WriteFile (WriteFile ∅ "images/default.jpg" [x00]) "images/a.jpg" [x01; x02].

Definition sample_db : Sqlite.database :=
  {| Sqlite.categories :=
       [{| Sqlite.category_id := 1; Sqlite.category_name := "fashion" |}];
     Sqlite.items :=
       [{| Sqlite.item_id := 1; Sqlite.item_name := "jacket";
           Sqlite.item_image_name := "abc.jpg"; Sqlite.item_category_id := 1 |};
        {| Sqlite.item_id := 2; Sqlite.item_name := "scarf";
           Sqlite.item_image_name := "def.jpg"; Sqlite.item_category_id := 1 |}] |}.

(** Two category rows of one name, as two racing requests leave them. *)
Definition twin_db : Sqlite.database :=
  {| Sqlite.categories :=
       [{| Sqlite.category_id := 1; Sqlite.category_name := "fashion" |};
        {| Sqlite.category_id := 2; Sqlite.category_name := "fashion" |}];
     Sqlite.items := [] |}.

(** An item whose name holds a NUL byte, "a\0b", and one whose name is
    "café" in UTF-8. *)
Definition odd_db : Sqlite.database :=
  {| Sqlite.categories :=
       [{| Sqlite.category_id := 1; Sqlite.category_name := "food" |}];
     Sqlite.items :=
       [{| Sqlite.item_id := 1;
           Sqlite.item_name := String "a" (String "000" (String "b" EmptyString));
           Sqlite.item_image_name := "x.jpg"; Sqlite.item_category_id := 1 |};
        {| Sqlite.item_id := 2;
           Sqlite.item_name := "caf" +:+ String "195" (String "169" EmptyString);
           Sqlite.item_image_name := "y.jpg"; Sqlite.item_category_id := 1 |}] |}.

Definition bad_request : outcome :=
  JSON StatusBadRequest
       (BodyResponse {| Message := "Image path does not end with .jpg" |}).

(** ** Known answers of the library functions *)

Example Sum256_abc :
  hex (SHA256.Sum256 [x61; x62; x63])
  = "ba7816bf8f01cfea414140de5dae2223b00361a396177a9cb410ff61f20015ad".
Proof. vm_compute. reflexivity. Qed.

Example Sum256_empty :
  hex (SHA256.Sum256 [])
  = "e3b0c44298fc1c149afbf4c8996fb92427ae41e4649b934ca495991b7852b855".
Proof. vm_compute. reflexivity. Qed.

(** ** The legacy backend: lookup by position *)

Lemma index_in_range {A : Type} (s : list A) (i : Z) :
  0 <= i < len s -> index s i = nth_error s (Z.to_nat i).
Proof.
  unfold index, len. intros [Hlo Hhi].
  destruct (i <? 0) eqn:E1; [apply Z.ltb_lt in E1; lia|].
  destruct (Z.of_nat (length s) <=? i) eqn:E2; [apply Z.leb_le in E2; lia|].
  reflexivity.
Qed.

Lemma index_is_Some {A : Type} (s : list A) (i : Z) :
  0 <= i < len s -> exists x, index s i = Some x.
Proof.
  intros H. rewrite index_in_range by exact H.
  destruct (nth_error s (Z.to_nat i)) as [x|] eqn:E; [eauto|].
  apply nth_error_None in E. unfold len in H. lia.
Qed.

Lemma index_None {A : Type} (s : list A) (i : Z) :
  index s i = None <-> i < 0 \/ len s <= i.
Proof.
  split.
  - intros H. destruct (Z_lt_dec i 0) as [|Hge]; [auto|].
    destruct (Z_le_dec (len s) i) as [|Hlt]; [auto|].
    destruct (index_is_Some s i) as [x Hx]; [lia|congruence].
  - unfold index, len. intros [H|H].
    + apply Z.ltb_lt in H. rewrite H. reflexivity.
    + apply Z.leb_le in H. unfold len in H. rewrite H, orb_true_r. reflexivity.
Qed.

Lemma guard_passes (n itemId : Z) :
  (itemId <=? 0) || (itemId >? n) = false <-> 1 <= itemId <= n.
Proof.
  rewrite orb_false_iff, Z.leb_gt, Z.gtb_ltb, Z.ltb_ge. lia.
Qed.

Lemma getInfo_at_in_range (l : list Item) (itemId : Z) :
  1 <= itemId <= len l ->
  exists item,
    nth_error l (Z.to_nat (itemId - 1)) = Some item /\
    Legacy.getInfo_at (Legacy.Stored l) itemId = JSON StatusOK (BodyItem item).
Proof.
  intros Hr. unfold Legacy.getInfo_at. simpl.
  apply guard_passes in Hr as Hg. rewrite Hg.
  destruct (index_is_Some l (itemId - 1)) as [item Hi]; [lia|].
  exists item. rewrite Hi. split; [|reflexivity].
  rewrite <- Hi. symmetry. apply index_in_range. lia.
Qed.

Lemma getInfo_at_out_of_range (l : list Item) (itemId : Z) :
  ~ 1 <= itemId <= len l ->
  Legacy.getInfo_at (Legacy.Stored l) itemId = Failed (Errorf "invalid ID" None).
Proof.
  intros Hr. unfold Legacy.getInfo_at. simpl.
  destruct ((itemId <=? 0) || (itemId >? len l)) eqn:Hg; [reflexivity|].
  apply guard_passes in Hg. contradiction.
Qed.

(** C9.  With [items.json] holding the list [l], a request whose id parses
    to [itemId] is answered with the [itemId]-th record of [l], counting
    from 1, when [1 <= itemId <= len l], and with an error otherwise: the
    identifier is the position in the list. *)
Theorem getInfo_positional (l : list Item) (id : string) (itemId : Z) :
  Atoi id = Ok itemId ->
  (1 <= itemId <= len l ->
   exists item,
     nth_error l (Z.to_nat (itemId - 1)) = Some item /\
     Legacy.getInfo (Legacy.Stored l) id = JSON StatusOK (BodyItem item)) /\
  (~ 1 <= itemId <= len l ->
   exists e, Legacy.getInfo (Legacy.Stored l) id = Failed e).
Proof.
  intros Hid. unfold Legacy.getInfo. rewrite Hid. split.
  - apply getInfo_at_in_range.
  - intros Hr. eexists. apply getInfo_at_out_of_range. exact Hr.
Qed.

Lemma getInfo_positional_witness :
  Atoi "2" = Ok 2 /\
  (1 <= 2 <= len [jacket; scarf] ->
   exists item,
     nth_error [jacket; scarf] (Z.to_nat (2 - 1)) = Some item /\
     Legacy.getInfo (Legacy.Stored [jacket; scarf]) "2" = JSON StatusOK (BodyItem item)) /\
  (~ 1 <= 2 <= len [jacket; scarf] ->
   exists e, Legacy.getInfo (Legacy.Stored [jacket; scarf]) "2" = Failed e).
Proof.
  split; [reflexivity|].
  apply (getInfo_positional [jacket; scarf] "2" 2). reflexivity.
Defined.

Example getInfo_second : 
  Legacy.getInfo (Legacy.Stored [jacket; scarf]) "2" = JSON StatusOK (BodyItem scarf).
Proof. reflexivity. Qed.

Example getInfo_zero :
  Legacy.getInfo (Legacy.Stored [jacket; scarf]) "0" = Failed (Errorf "invalid ID" None).
Proof. reflexivity. Qed.

(** C10.  [getInfo] never panics: whatever the file holds and whatever the
    request, the slice is indexed at [itemId - 1] only when that index is in
    range.  Whenever the index would be out of range, and so for 0 and for
    every negative id, the error branch has been taken. *)
Theorem getInfo_index_guarded (f : Legacy.items_file) (id : string) :
  Legacy.getInfo f id <> Panicked /\
  (forall l itemId,
     index l (itemId - 1) = None ->
     Legacy.getInfo_at (Legacy.Stored l) itemId = Failed (Errorf "invalid ID" None)) /\
  (forall l itemId,
     itemId <= 0 ->
     Legacy.getInfo_at (Legacy.Stored l) itemId = Failed (Errorf "invalid ID" None)).
Proof.
  split; [|split].
  - unfold Legacy.getInfo. destruct (Atoi id) as [itemId|e]; [|discriminate].
    destruct f as [why| |l]; try discriminate.
    destruct (Z_le_dec 1 itemId) as [H1|H1];
      [destruct (Z_le_dec itemId (len l)) as [H2|H2]|].
    + destruct (getInfo_at_in_range l itemId) as [item [_ Hg]]; [lia|].
      rewrite Hg. discriminate.
    + rewrite getInfo_at_out_of_range by lia. discriminate.
    + rewrite getInfo_at_out_of_range by lia. discriminate.
  - intros l itemId Hi. apply index_None in Hi.
    apply getInfo_at_out_of_range. lia.
  - intros l itemId Hi. apply getInfo_at_out_of_range. lia.
Qed.

(** ** The image store *)

Lemma ReadFile_WriteFile (fs : filesystem) (name : string) (data : list byte) :
  ReadFile (WriteFile fs name data) name = Some data.
Proof. unfold ReadFile, WriteFile. apply lookup_insert_eq. Qed.

Lemma WriteFile_twice (fs : filesystem) (name : string) (d1 d2 : list byte) :
  WriteFile (WriteFile fs name d1) name d2 = WriteFile fs name d2.
Proof. unfold WriteFile. apply insert_insert_eq. Qed.

Lemma saveImage_io_ok (fs : filesystem) (b : list byte) :
  saveImage io_ok fs b
  = (WriteFile fs (imagePath_of (fileName_of (SHA256.Sum256 b))) b,
     (fileName_of (SHA256.Sum256 b), None)).
Proof. unfold saveImage. simpl. rewrite WriteFile_twice. reflexivity. Qed.

Lemma saveImage_success (io : image_io) (fs fs' : filesystem) (b : list byte)
    (name : string) :
  saveImage io fs b = (fs', (name, None)) ->
  name = fileName_of (SHA256.Sum256 b) /\
  ReadFile fs' (imagePath_of name) = Some b.
Proof.
  unfold saveImage.
  destruct (open_err io); [discriminate|].
  destruct (read_err io); [discriminate|].
  destruct (mkdir_err io); [discriminate|].
  destruct (create_err io); [discriminate|].
  destruct (write_err io) as [[why n]|]; [discriminate|].
  intros H. injection H as Hfs Hname. subst fs' name.
  split; [reflexivity|]. apply ReadFile_WriteFile.
Qed.

(** C3.  The reference [saveImage] returns for the bytes [b] is
    [hex(sha256(b)) + ".jpg"], whatever the filesystem and the environment:
    every successful call returns it and leaves [b] in the file of that
    name.  When no call of the environment fails, saving [b] twice succeeds
    twice with that reference, the second call changes nothing, and the
    file holds [b]. *)
Theorem saveImage_content_addressed (fs : filesystem) (b : list byte) :
  let ref := hex (SHA256.Sum256 b) +:+ ".jpg" in
  let first := saveImage io_ok fs b in
  let second := saveImage io_ok (fst first) b in
  snd first = (ref, None) /\
  snd second = (ref, None) /\
  fst second = fst first /\
  ReadFile (fst second) ("./images/" +:+ ref) = Some b /\
  (forall io fs0 fs' name,
     saveImage io fs0 b = (fs', (name, None)) ->
     name = ref /\ ReadFile fs' ("./images/" +:+ name) = Some b).
Proof.
  intros ref first second. subst first second.
  rewrite !saveImage_io_ok. simpl.
  repeat split.
  - apply WriteFile_twice.
  - apply ReadFile_WriteFile.
  - eapply saveImage_success; eassumption.
  - eapply (saveImage_success io fs0 fs' b name); eassumption.
Qed.

Example saveImage_abc :
  snd (saveImage io_ok ∅ [x61; x62; x63])
  = ("ba7816bf8f01cfea414140de5dae2223b00361a396177a9cb410ff61f20015ad.jpg", None).
Proof. vm_compute. reflexivity. Qed.

(** ** Serving an image *)

Lemma split_slash_element (r : string) :
  no_slash r = true -> split_slash r = [r].
Proof.
  induction r as [|c r IH]; [reflexivity|]. simpl.
  intros H. apply andb_true_iff in H as [Hc Hr].
  apply negb_true_iff in Hc. rewrite Hc, (IH Hr). reflexivity.
Qed.

Lemma split_slash_app (e rest : string) :
  no_slash e = true ->
  split_slash (e +:+ String "/" rest) = e :: split_slash rest.
Proof.
  induction e as [|c e IH]; [reflexivity|]. simpl.
  intros H. apply andb_true_iff in H as [Hc He].
  apply negb_true_iff in Hc. rewrite Hc, (IH He). reflexivity.
Qed.

Lemma split_slash_images (r : string) :
  no_slash r = true -> split_slash ("images/" +:+ r) = ["images"; r].
Proof.
  intros H. change ("images/" +:+ r) with ("images" +:+ String "/" r).
  rewrite (split_slash_app "images" r eq_refl), (split_slash_element r H).
  reflexivity.
Qed.

(** The path [getImg] looks at, for a reference that is one path element. *)
Lemma Join_element (r : string) :
  no_slash r = true ->
  Join [ImgDir; r]
  = if String.eqb r "" then "images"
    else if String.eqb r "." then "images"
    else if String.eqb r ".." then "."
    else "images/" +:+ r.
Proof.
  intros H.
  change (Join [ImgDir; r]) with (Clean ("images/" +:+ r)).
  unfold Clean.
  change (String.eqb ("images/" +:+ r) "") with false.
  change (is_rooted ("images/" +:+ r)) with false. cbv iota.
  rewrite (split_slash_images r H).
  change (fold_left (clean_step false) ["images"; r] [])
    with (clean_step false ["images"] r).
  unfold clean_step.
  destruct (String.eqb r "") eqn:E0; [reflexivity|].
  destruct (String.eqb r ".") eqn:E1; [reflexivity|].
  destruct (String.eqb r "..") eqn:E2; reflexivity.
Qed.

Lemma HasSuffix_cons (c : ascii) (s suffix : string) :
  (String.length suffix <= String.length s)%nat ->
  HasSuffix (String c s) suffix = HasSuffix s suffix.
Proof.
  intros Hle. unfold HasSuffix. simpl String.length.
  replace (S (String.length s) - String.length suffix)%nat
    with (S (String.length s - String.length suffix)) by lia.
  simpl substring.
  destruct (Nat.leb_spec (String.length suffix) (String.length s)); [|lia].
  destruct (Nat.leb_spec (String.length suffix) (S (String.length s))); [|lia].
  reflexivity.
Qed.

Lemma HasSuffix_images (r : string) :
  HasSuffix ("images/" +:+ r) ".jpg" = HasSuffix r ".jpg".
Proof.
  destruct r as [|a [|b [|c [|d r]]]]; try reflexivity.
  change ("images/" +:+ String a (String b (String c (String d r))))
    with (String "i" (String "m" (String "a" (String "g" (String "e"
            (String "s" (String "/" (String a (String b (String c (String d r))))))))))).
  rewrite !HasSuffix_cons by (simpl; lia). reflexivity.
Qed.

(** For a reference that is one path element, the suffix test on the path is
    the suffix test on the reference. *)
Lemma HasSuffix_Join_element (r : string) :
  no_slash r = true ->
  HasSuffix (Join [ImgDir; r]) ".jpg" = HasSuffix r ".jpg".
Proof.
  intros H. rewrite (Join_element r H).
  destruct (String.eqb r "") eqn:E0.
  { apply String.eqb_eq in E0. subst r. reflexivity. }
  destruct (String.eqb r ".") eqn:E1.
  { apply String.eqb_eq in E1. subst r. reflexivity. }
  destruct (String.eqb r "..") eqn:E2.
  { apply String.eqb_eq in E2. subst r. reflexivity. }
  apply HasSuffix_images.
Qed.

(** C7, as it is worded, fails: the reference "a.jpg/" does not end with
    ".jpg", yet [getImg] does not reject it; [path.Join] drops the trailing
    slash before the suffix is looked at, and the stored file is served. *)
Lemma getImg_suffix_of_reference_counterexample :
  ~ (forall (fs : filesystem) (r : string),
       HasSuffix r ".jpg" = false ->
       status_of (getImg fs r) = StatusBadRequest).
Proof.
  intros H. specialize (H sample_fs "a.jpg/" eq_refl).
  vm_compute in H. discriminate H.
Qed.

(** C7, amended.  With [p] the cleaned path [path.Join("images", r)]:
    when [p] does not end with ".jpg" the request is rejected with 400;
    when it does and no file is at [p], the bytes of [images/default.jpg]
    are served, provided that file exists; when a file is at [p], its bytes
    are served.  For a reference without a slash, [p] ends with ".jpg"
    exactly when the reference does. *)
Theorem getImg_by_cleaned_path (fs : filesystem) (r : string) :
  let p := Join [ImgDir; r] in
  (HasSuffix p ".jpg" = false -> getImg fs r = bad_request) /\
  (HasSuffix p ".jpg" = true ->
   ReadFile fs p = None ->
   forall placeholder,
     ReadFile fs "images/default.jpg" = Some placeholder ->
     getImg fs r = File placeholder) /\
  (HasSuffix p ".jpg" = true ->
   forall content,
     ReadFile fs p = Some content ->
     getImg fs r = File content) /\
  (no_slash r = true -> HasSuffix p ".jpg" = HasSuffix r ".jpg").
Proof.
  intros p. unfold getImg. fold p. split; [|split; [|split]].
  - intros Hs. rewrite Hs. reflexivity.
  - intros Hs Hp d Hd. rewrite Hs. simpl. unfold Stat_ok. rewrite Hp.
    unfold serve_file.
    change (Join [ImgDir; "default.jpg"]) with "images/default.jpg".
    rewrite Hd. reflexivity.
  - intros Hs content Hp. rewrite Hs. simpl. unfold Stat_ok. rewrite Hp.
    unfold serve_file. rewrite Hp. reflexivity.
  - apply HasSuffix_Join_element.
Qed.

Example getImg_missing : getImg sample_fs "missing.jpg" = File [x00].
Proof. vm_compute. reflexivity. Qed.

Example getImg_stored : getImg sample_fs "a.jpg" = File [x01; x02].
Proof. vm_compute. reflexivity. Qed.

Example getImg_not_jpg : getImg sample_fs "a.png" = bad_request.
Proof. vm_compute. reflexivity. Qed.

Example getImg_trailing_slash : getImg sample_fs "a.jpg/" = File [x01; x02].
Proof. vm_compute. reflexivity. Qed.

Example getImg_no_placeholder :
  getImg ∅ "missing.jpg" = HTTPError StatusNotFound (BodyText "Not Found").
Proof. vm_compute. reflexivity. Qed.

(** ** The SQLite backend: lookup by id *)

Lemma joined_In (db : Sqlite.database) (r : Sqlite.item_row * Sqlite.category_row) :
  In r (Sqlite.joined db) <->
  In (fst r) (Sqlite.items db) /\ In (snd r) (Sqlite.categories db) /\
  Sqlite.item_category_id (fst r) = Sqlite.category_id (snd r).
Proof.
  unfold Sqlite.joined. rewrite in_flat_map. split.
  - intros [i [Hi Hr]]. apply in_map_iff in Hr as [c [Hc Hf]].
    apply filter_In in Hf as [Hin Heq]. subst r. simpl.
    apply Z.eqb_eq in Heq. auto.
  - intros [Hi [Hc Heq]]. exists (fst r). split; [exact Hi|].
    apply in_map_iff. exists (snd r). split; [destruct r; reflexivity|].
    apply filter_In. split; [exact Hc|]. apply Z.eqb_eq. exact Heq.
Qed.

Lemma selectById_no_row (fault : option string) (db : Sqlite.database) (itemId : Z) :
  (forall i, In i (Sqlite.items db) -> Sqlite.item_id i <> itemId) ->
  exists e, Sqlite.selectById fault db itemId = Err e.
Proof.
  intros Hno. unfold Sqlite.selectById.
  destruct fault as [why|]; [eauto|].
  destruct (List.find _ (Sqlite.joined db)) as [r|] eqn:Hf; [|eauto].
  apply find_some in Hf as [Hin Hid]. apply joined_In in Hin as [Hi _].
  apply Z.eqb_eq in Hid. exfalso. exact (Hno _ Hi Hid).
Qed.

(** C5, as it is worded, fails: for an id no item row carries, the answer is
    not of the NotFound class. *)
Lemma getInfoById_not_found_counterexample :
  ~ (forall (db : Sqlite.database) (id : string) (itemId : Z),
       Atoi id = Ok itemId ->
       (forall i, In i (Sqlite.items db) -> Sqlite.item_id i <> itemId) ->
       is_not_found (Sqlite.getInfoById None db id) = true).
Proof.
  intros H. specialize (H sample_db "999" 999 eq_refl).
  assert (Hno : forall i, In i (Sqlite.items sample_db) -> Sqlite.item_id i <> 999).
  { intros i [Hi|[Hi|[]]]; subst i; simpl; lia. }
  specialize (H Hno). vm_compute in H. discriminate H.
Qed.

(** C5, amended.  For an id no item row carries, [getInfoById] fails: it
    returns the HTTP error 500, Internal Server Error, with the message
    "Error while searching item with ID"; a server fault, and the same
    answer a failing query gets. *)
Theorem getInfoById_missing_is_500
    (fault : option string) (db : Sqlite.database) (id : string) (itemId : Z) :
  Atoi id = Ok itemId ->
  (forall i, In i (Sqlite.items db) -> Sqlite.item_id i <> itemId) ->
  Sqlite.getInfoById fault db id
  = HTTPError StatusInternalServerError
      (BodyResponse {| Message := "Error while searching item with ID" |}) /\
  is_client_fault (Sqlite.getInfoById fault db id) = false.
Proof.
  intros Hid Hno. unfold Sqlite.getInfoById. rewrite Hid.
  destruct (selectById_no_row fault db itemId Hno) as [e He].
  rewrite He. split; reflexivity.
Qed.

Lemma getInfoById_missing_is_500_witness :
  Sqlite.getInfoById None sample_db "999"
  = HTTPError StatusInternalServerError
      (BodyResponse {| Message := "Error while searching item with ID" |}) /\
  is_client_fault (Sqlite.getInfoById None sample_db "999") = false.
Proof.
  apply (getInfoById_missing_is_500 None sample_db "999" 999).
  - reflexivity.
  - intros i [Hi|[Hi|[]]]; subst i; simpl; lia.
Defined.

(** ** The SQLite backend: one transaction per item *)

Lemma count_named_find_None (c : string) (rows : list Sqlite.category_row) :
  List.find (fun r => String.eqb (Sqlite.category_name r) c) rows = None ->
  count_named c rows = 0%nat.
Proof.
  unfold count_named. induction rows as [|r rows IH]; simpl; [reflexivity|].
  destruct (String.eqb (Sqlite.category_name r) c); [discriminate|]. exact IH.
Qed.

Lemma count_named_find_Some (c : string) (rows : list Sqlite.category_row)
    (r : Sqlite.category_row) :
  List.find (fun r => String.eqb (Sqlite.category_name r) c) rows = Some r ->
  (1 <= count_named c rows)%nat.
Proof.
  unfold count_named. induction rows as [|r' rows IH]; simpl; [discriminate|].
  destruct (String.eqb (Sqlite.category_name r') c); simpl; [lia|]. exact IH.
Qed.

Lemma count_named_app (c : string) (l1 l2 : list Sqlite.category_row) :
  count_named c (l1 ++ l2) = (count_named c l1 + count_named c l2)%nat.
Proof. unfold count_named. rewrite List.filter_app, length_app. reflexivity. Qed.

(** What [checkCategoryId] does on a live transaction. *)
Lemma checkCategoryId_begun (f : Sqlite.faults) (c : string) (db : Sqlite.database) :
  match Sqlite.checkCategoryId f c (begun db) with
  | (tx, _, (id, None)) =>
      Sqlite.done tx = false /\
      Sqlite.items (Sqlite.pending tx) = Sqlite.items db /\
      let row := {| Sqlite.category_id := id; Sqlite.category_name := c |} in
      In row (Sqlite.categories (Sqlite.pending tx)) /\
      (Sqlite.categories (Sqlite.pending tx) = Sqlite.categories db \/
       Sqlite.categories (Sqlite.pending tx) = Sqlite.categories db ++ [row] /\
       count_named c (Sqlite.categories db) = 0%nat /\
       id = Sqlite.next_rowid (map Sqlite.category_id (Sqlite.categories db)))
  | (tx, _, (_, Some _)) => Sqlite.done tx = false
  end.
Proof.
  unfold Sqlite.checkCategoryId, Sqlite.findCategoryId, Sqlite.makeNewCategory,
    Sqlite.driver, begun. simpl.
  destruct (Sqlite.find_fault f) as [why|]; [reflexivity|].
  destruct (List.find _ (Sqlite.categories db)) as [r|] eqn:Hf.
  - apply find_some in Hf as [Hin Hn]. apply String.eqb_eq in Hn.
    repeat split; auto. simpl. destruct r as [i n]; simpl in *; subst n; exact Hin.
  - destruct (Sqlite.new_category_fault f) as [why|]; [reflexivity|].
    destruct (Sqlite.last_id_fault f) as [why|]; [reflexivity|].
    simpl. repeat split; auto; [apply in_or_app; right; left; reflexivity|].
    right. split; [reflexivity|]. split; [|reflexivity].
    apply count_named_find_None. exact Hf.
Qed.

Lemma valid_refs_spec (db : Sqlite.database) :
  valid_refs db = true <->
  forall i, In i (Sqlite.items db) ->
    exists c, In c (Sqlite.categories db) /\
              Sqlite.item_category_id i = Sqlite.category_id c.
Proof.
  unfold valid_refs. rewrite forallb_forall. split; intros H i Hi.
  - apply H in Hi. apply existsb_exists in Hi as [c [Hc Heq]].
    apply Z.eqb_eq in Heq. eauto.
  - apply existsb_exists. destruct (H i Hi) as [c [Hc Heq]].
    exists c. split; [exact Hc|]. apply Z.eqb_eq. exact Heq.
Qed.

Lemma valid_refs_extend (db db' : Sqlite.database)
    (cat : Sqlite.category_row) (it : Sqlite.item_row) :
  valid_refs db = true ->
  (forall c, In c (Sqlite.categories db) -> In c (Sqlite.categories db')) ->
  Sqlite.items db' = Sqlite.items db ++ [it] ->
  In cat (Sqlite.categories db') ->
  Sqlite.item_category_id it = Sqlite.category_id cat ->
  valid_refs db' = true.
Proof.
  rewrite !valid_refs_spec. intros Hv Hsub Hitems Hcat Hid i Hi.
  rewrite Hitems in Hi. apply in_app_or in Hi as [Hi|[Hi|[]]].
  - destruct (Hv i Hi) as [c [Hc Heq]]. eauto.
  - subst i. eauto.
Qed.

(** The committed content and the error of [saveItem], step by step. *)
Lemma saveItem_unfold (f : Sqlite.faults) (db : Sqlite.database)
    (name category fileName : string) :
  let r := Sqlite.saveItem f db name category fileName in
  match Sqlite.begin_fault f with
  | Some why =>
      returned r = Some (Errorf "error while beginning transaction" (Some (ErrDriver why)))
      /\ committed r = db /\ logged r = []
  | None =>
      match Sqlite.checkCategoryId f category (begun db) with
      | (_, logs, (_, Some err)) =>
          returned r = Some (Errorf "error while searching for category id" (Some err))
          /\ committed r = db
          /\ logged r = logs ++
               match Sqlite.rollback_fault f with
               | Some why => [Sqlite.LogPrint "error while rolling back transaction" (ErrDriver why)]
               | None => []
               end
      | (tx, logs, (categoryId, None)) =>
          match Sqlite.insert_fault f with
          | Some why =>
              returned r = Some (Errorf "error while adding a new item" (Some (ErrDriver why)))
              /\ committed r = db
              /\ logged r = logs ++
                   match Sqlite.rollback_fault f with
                   | Some why => [Sqlite.LogPrint "error while rolling back transaction" (ErrDriver why)]
                   | None => []
                   end
          | None =>
              match Sqlite.commit_fault f with
              | Some why =>
                  returned r = Some (Errorf "error while commiting transaction" (Some (ErrDriver why)))
                  /\ committed r = db
                  /\ logged r = logs ++ [Sqlite.LogPrint "error while rolling back transaction" ErrTxDone]
              | None =>
                  returned r = None
                  /\ committed r =
                       {| Sqlite.categories := Sqlite.categories (Sqlite.pending tx);
                          Sqlite.items :=
                            Sqlite.items db ++
                            [{| Sqlite.item_id := Sqlite.next_rowid (map Sqlite.item_id (Sqlite.items db));
                                Sqlite.item_name := name;
                                Sqlite.item_image_name := fileName;
                                Sqlite.item_category_id := categoryId |}] |}
                  /\ logged r = logs ++ [Sqlite.LogPrint "error while rolling back transaction" ErrTxDone]
              end
          end
      end
  end.
Proof.
  intros r. subst r. unfold Sqlite.saveItem, Sqlite.Begin.
  destruct (Sqlite.begin_fault f) as [why|]; [repeat split|].
  fold (begun db). unfold Sqlite.saveItem_body.
  pose proof (checkCategoryId_begun f category db) as Hc.
  destruct (Sqlite.checkCategoryId f category (begun db)) as [[tx logs] [id [err|]]].
  - unfold Sqlite.Rollback. rewrite Hc. unfold Sqlite.driver.
    destruct (Sqlite.rollback_fault f); simpl; rewrite ?app_nil_r; repeat split.
  - destruct Hc as [Hd [Hi _]].
    unfold Sqlite.insertItem. rewrite Hd.
    destruct (Sqlite.insert_fault f) as [why|].
    + unfold Sqlite.Rollback. rewrite Hd. unfold Sqlite.driver.
      destruct (Sqlite.rollback_fault f); simpl; rewrite ?app_nil_r; repeat split.
    + unfold Sqlite.Commit. simpl.
      destruct (Sqlite.commit_fault f) as [why|]; simpl; rewrite ?Hi; repeat split.
Qed.



Example saveItem_commits :
  steps_succeed Sqlite.no_faults Sqlite.empty_db "fashion" = true /\
  returned (Sqlite.saveItem Sqlite.no_faults Sqlite.empty_db "jacket" "fashion" "abc.jpg")
  = None.
Proof. split; reflexivity. Qed.

Lemma checkCategoryId_with_rollback (rb : option string) (f : Sqlite.faults)
    (c : string) (tx : Sqlite.Tx) :
  Sqlite.checkCategoryId (with_rollback rb f) c tx = Sqlite.checkCategoryId f c tx.
Proof. reflexivity. Qed.

Lemma saveItem_with_rollback (rb : option string) (f : Sqlite.faults)
    (db : Sqlite.database) (name category fileName : string) :
  returned (Sqlite.saveItem (with_rollback rb f) db name category fileName)
  = returned (Sqlite.saveItem f db name category fileName) /\
  committed (Sqlite.saveItem (with_rollback rb f) db name category fileName)
  = committed (Sqlite.saveItem f db name category fileName).
Proof.
  pose proof (saveItem_unfold f db name category fileName) as H.
  pose proof (saveItem_unfold (with_rollback rb f) db name category fileName) as H'.
  cbv zeta in H, H'. rewrite checkCategoryId_with_rollback in H'.
  change (Sqlite.begin_fault (with_rollback rb f)) with (Sqlite.begin_fault f) in H'.
  change (Sqlite.insert_fault (with_rollback rb f)) with (Sqlite.insert_fault f) in H'.
  change (Sqlite.commit_fault (with_rollback rb f)) with (Sqlite.commit_fault f) in H'.
  destruct (Sqlite.begin_fault f).
  { destruct H as [-> [-> _]], H' as [-> [-> _]]. split; reflexivity. }
  destruct (Sqlite.checkCategoryId f category (begun db)) as [[tx logs] [id [err|]]].
  { destruct H as [-> [-> _]], H' as [-> [-> _]]. split; reflexivity. }
  destruct (Sqlite.insert_fault f).
  { destruct H as [-> [-> _]], H' as [-> [-> _]]. split; reflexivity. }
  destruct (Sqlite.commit_fault f);
    destruct H as [-> [-> _]], H' as [-> [-> _]]; split; reflexivity.
Qed.

(** C8.  The deferred rollback never changes what [saveItem] returns or
    commits.  The error returned is the failure of the first failing step,
    wrapped with the message of that step; a rollback that fails is logged
    and nothing more; and when the commit succeeds [saveItem] returns nil
    while the deferred rollback fails with [sql.ErrTxDone], which is logged. *)
Theorem rollback_never_masks (f : Sqlite.faults) (db : Sqlite.database)
    (name category fileName : string) :
  let r := Sqlite.saveItem f db name category fileName in
  let rollback_line e := Sqlite.LogPrint "error while rolling back transaction" e in
  (forall rb,
     returned (Sqlite.saveItem (with_rollback rb f) db name category fileName)
     = returned r /\
     committed (Sqlite.saveItem (with_rollback rb f) db name category fileName)
     = committed r) /\
  (forall why,
     Sqlite.begin_fault f = Some why ->
     returned r
     = Some (Errorf "error while beginning transaction" (Some (ErrDriver why)))) /\
  (Sqlite.begin_fault f = None ->
   match Sqlite.checkCategoryId f category (begun db) with
   | (_, _, (_, Some err)) =>
       returned r = Some (Errorf "error while searching for category id" (Some err))
   | (_, _, (_, None)) =>
       match Sqlite.insert_fault f, Sqlite.commit_fault f with
       | Some why, _ =>
           returned r
           = Some (Errorf "error while adding a new item" (Some (ErrDriver why)))
       | None, Some why =>
           returned r
           = Some (Errorf "error while commiting transaction" (Some (ErrDriver why)))
       | None, None =>
           returned r = None /\ In (rollback_line ErrTxDone) (logged r)
       end
   end) /\
  (forall why,
     Sqlite.begin_fault f = None ->
     Sqlite.rollback_fault f = Some why ->
     exists e, In (rollback_line e) (logged r)).
Proof.
  intros r rollback_line.
  pose proof (saveItem_unfold f db name category fileName) as H.
  fold r in H. cbv zeta in H.
  split; [intros rb; apply saveItem_with_rollback|].
  split; [intros why Hb; rewrite Hb in H; apply H|].
  split.
  - intros Hb. rewrite Hb in H.
    destruct (Sqlite.checkCategoryId f category (begun db)) as [[tx logs] [id [err|]]];
      [apply H|].
    destruct (Sqlite.insert_fault f); [apply H|].
    destruct (Sqlite.commit_fault f); [apply H|].
    destruct H as [Hr [_ Hl]]. split; [exact Hr|].
    rewrite Hl. apply in_or_app. right. left. reflexivity.
  - intros why Hb Hrb. rewrite Hb, Hrb in H.
    destruct (Sqlite.checkCategoryId f category (begun db)) as [[tx logs] [id [err|]]].
    { destruct H as [_ [_ Hl]]. exists (ErrDriver why). rewrite Hl.
      apply in_or_app. right. left. reflexivity. }
    destruct (Sqlite.insert_fault f).
    { destruct H as [_ [_ Hl]]. exists (ErrDriver why). rewrite Hl.
      apply in_or_app. right. left. reflexivity. }
    destruct (Sqlite.commit_fault f);
      destruct H as [_ [_ Hl]]; exists ErrTxDone; rewrite Hl;
      apply in_or_app; right; left; reflexivity.
Qed.

Example saveItem_first :
  Sqlite.saveItem Sqlite.no_faults Sqlite.empty_db "jacket" "fashion" "abc.jpg"
  = ({| Sqlite.categories :=
          [{| Sqlite.category_id := 1; Sqlite.category_name := "fashion" |}];
        Sqlite.items :=
          [{| Sqlite.item_id := 1; Sqlite.item_name := "jacket";
              Sqlite.item_image_name := "abc.jpg"; Sqlite.item_category_id := 1 |}] |},
     [Sqlite.LogPrint "error while rolling back transaction" ErrTxDone],
     None).
Proof. reflexivity. Qed.

Example saveItem_commit_fails :
  Sqlite.saveItem (with_rollback (Some "rollback failed")
                     {| Sqlite.begin_fault := None; Sqlite.find_fault := None;
                        Sqlite.new_category_fault := None; Sqlite.last_id_fault := None;
                        Sqlite.insert_fault := None;
                        Sqlite.commit_fault := Some "disk I/O error";
                        Sqlite.rollback_fault := None |})
                  Sqlite.empty_db "jacket" "fashion" "abc.jpg"
  = (Sqlite.empty_db,
     [Sqlite.LogPrint "error while rolling back transaction" ErrTxDone],
     Some (Errorf "error while commiting transaction" (Some (ErrDriver "disk I/O error")))).
Proof. reflexivity. Qed.

(** ** The SQLite backend: resolving a category *)

Lemma find_app_None {A : Type} (p : A -> bool) (l1 l2 : list A) :
  List.find p l1 = None -> List.find p (l1 ++ l2) = List.find p l2.
Proof.
  induction l1 as [|x l1 IH]; simpl; [reflexivity|].
  destruct (p x); [discriminate|]. exact IH.
Qed.

Lemma fold_max_ge (i : Z) (rest : list Z) :
  i <= fold_right Z.max i rest /\
  forall j, In j rest -> j <= fold_right Z.max i rest.
Proof.
  induction rest as [|x rest [IH1 IH2]]; simpl.
  - split; [lia|intros j []].
  - split; [lia|]. intros j [->|Hj]; [lia|]. specialize (IH2 j Hj). lia.
Qed.

Lemma next_rowid_fresh (ids : list Z) (i : Z) :
  In i ids -> i < Sqlite.next_rowid ids.
Proof.
  destruct ids as [|x rest]; [intros []|]. simpl.
  destruct (fold_max_ge x rest) as [H1 H2].
  intros [->|Hi]; [lia|]. specialize (H2 i Hi). lia.
Qed.

Lemma checkCategoryId_found (db : Sqlite.database) (c : string)
    (r : Sqlite.category_row) :
  List.find (fun r => String.eqb (Sqlite.category_name r) c) (Sqlite.categories db)
  = Some r ->
  Sqlite.checkCategoryId Sqlite.no_faults c (begun db)
  = (begun db, [], (Sqlite.category_id r, None)).
Proof.
  intros Hf. unfold Sqlite.checkCategoryId, Sqlite.findCategoryId. simpl.
  rewrite Hf. reflexivity.
Qed.

Lemma checkCategoryId_new (db : Sqlite.database) (c : string) :
  List.find (fun r => String.eqb (Sqlite.category_name r) c) (Sqlite.categories db)
  = None ->
  let id := Sqlite.next_rowid (map Sqlite.category_id (Sqlite.categories db)) in
  Sqlite.checkCategoryId Sqlite.no_faults c (begun db)
  = (begun {| Sqlite.categories :=
                Sqlite.categories db ++
                [{| Sqlite.category_id := id; Sqlite.category_name := c |}];
              Sqlite.items := Sqlite.items db |},
     [], (id, None)).
Proof.
  intros Hf id. unfold Sqlite.checkCategoryId, Sqlite.findCategoryId. simpl.
  rewrite Hf. reflexivity.
Qed.

(** C2, as it is worded, fails: from a content that already holds two
    category rows named "fashion", two calls return the same id, and two
    rows of that name are there afterwards, not one. *)
Lemma checkCategoryId_twice_counterexample :
  ~ (forall (db : Sqlite.database) (c : string),
       let first := Sqlite.checkCategoryId Sqlite.no_faults c (begun db) in
       let second := Sqlite.checkCategoryId Sqlite.no_faults c (fst (fst first)) in
       snd first = snd second /\
       count_named c (Sqlite.categories (Sqlite.pending (fst (fst second)))) = 1%nat).
Proof.
  intros H. specialize (H twin_db "fashion"). cbv zeta in H.
  destruct H as [_ H]. vm_compute in H. discriminate H.
Qed.

(** C2, amended.  In a transaction whose content holds at most one category
    row named [c], and with no failure of the driver, two calls of
    [checkCategoryId] in sequence return the same id and no error, and
    exactly one row named [c] is there afterwards: when a row named [c] was
    there its id is returned and the table is unchanged, otherwise one row
    is added and its id, which no row had, is returned.  While the rowids
    of the table are below the largest 64-bit integer, that id is one more
    than the largest of them (1 in an empty table). *)
Theorem checkCategoryId_twice (db : Sqlite.database) (c : string) :
  (count_named c (Sqlite.categories db) <= 1)%nat ->
  let first := Sqlite.checkCategoryId Sqlite.no_faults c (begun db) in
  let second := Sqlite.checkCategoryId Sqlite.no_faults c (fst (fst first)) in
  let rows := Sqlite.categories (Sqlite.pending (fst (fst second))) in
  exists id,
    snd first = (id, None) /\
    snd second = (id, None) /\
    count_named c rows = 1%nat /\
    match List.find (fun r => String.eqb (Sqlite.category_name r) c)
                    (Sqlite.categories db) with
    | Some r => id = Sqlite.category_id r /\ rows = Sqlite.categories db
    | None =>
        ~ In id (map Sqlite.category_id (Sqlite.categories db)) /\
        rows = Sqlite.categories db ++
               [{| Sqlite.category_id := id; Sqlite.category_name := c |}] /\
        (Forall (fun r => Sqlite.category_id r < max_int) (Sqlite.categories db) ->
         id = Sqlite.next_rowid (map Sqlite.category_id (Sqlite.categories db)))
    end.
Proof.
  intros Hle first second rows. subst rows second first.
  destruct (List.find _ (Sqlite.categories db)) as [r|] eqn:Hf.
  - rewrite (checkCategoryId_found db c r Hf). simpl.
    rewrite (checkCategoryId_found db c r Hf). simpl.
    exists (Sqlite.category_id r). repeat split.
    apply count_named_find_Some in Hf. lia.
  - rewrite (checkCategoryId_new db c Hf). simpl.
    erewrite checkCategoryId_found.
    2:{ simpl. rewrite (find_app_None _ _ _ Hf). simpl.
        rewrite String.eqb_refl. reflexivity. }
    simpl. eexists. split; [reflexivity|]. split; [reflexivity|]. split.
    + rewrite count_named_app, (count_named_find_None _ _ Hf).
      unfold count_named. simpl. rewrite String.eqb_refl. reflexivity.
    + split; [|split; [reflexivity|intros _; reflexivity]].
      intros Hin. apply next_rowid_fresh in Hin. lia.
Qed.

Lemma checkCategoryId_twice_witness :
  (count_named "outdoor" (Sqlite.categories sample_db) <= 1)%nat /\
  exists id,
    snd (Sqlite.checkCategoryId Sqlite.no_faults "outdoor" (begun sample_db))
    = (id, None) /\
    snd (Sqlite.checkCategoryId Sqlite.no_faults "outdoor"
           (fst (fst (Sqlite.checkCategoryId Sqlite.no_faults "outdoor"
                        (begun sample_db)))))
    = (id, None) /\
    ~ In id (map Sqlite.category_id (Sqlite.categories sample_db)).
Proof.
  split; [vm_compute; lia|].
  destruct (checkCategoryId_twice sample_db "outdoor") as [id [H1 [H2 [_ [H4 _]]]]];
    [vm_compute; lia|].
  exists id. split; [exact H1|]. split; [exact H2|exact H4].
Defined.

Example checkCategoryId_reuses :
  snd (Sqlite.checkCategoryId Sqlite.no_faults "fashion" (begun sample_db))
  = (1, None).
Proof. reflexivity. Qed.

(** ** The SQLite backend: an item read back *)

Lemma filter_no_id (cid : Z) (cats : list Sqlite.category_row) :
  ~ In cid (map Sqlite.category_id cats) ->
  List.filter (fun c => cid =? Sqlite.category_id c) cats = [].
Proof.
  induction cats as [|x l IH]; simpl; [reflexivity|]. intros Hn.
  destruct (cid =? Sqlite.category_id x) eqn:E.
  - apply Z.eqb_eq in E. exfalso. apply Hn. left. symmetry. exact E.
  - apply IH. intros Hin. apply Hn. right. exact Hin.
Qed.

(** Under the primary key, the join finds one category row for an item. *)
Lemma filter_unique_id (cats : list Sqlite.category_row) (row : Sqlite.category_row) :
  NoDup (map Sqlite.category_id cats) ->
  In row cats ->
  List.filter (fun c => Sqlite.category_id row =? Sqlite.category_id c) cats = [row].
Proof.
  induction cats as [|x l IH]; simpl; [intros _ []|].
  intros Hnd Hin. inversion Hnd as [|? ? Hx Hl]; subst.
  rewrite list_elem_of_In in Hx.
  destruct Hin as [->|Hin].
  - rewrite Z.eqb_refl. f_equal. apply filter_no_id. exact Hx.
  - destruct (Sqlite.category_id row =? Sqlite.category_id x) eqn:E.
    + apply Z.eqb_eq in E. exfalso. apply Hx. rewrite <- E.
      apply in_map. exact Hin.
    + apply IH; assumption.
Qed.

Lemma NoDup_next_rowid (ids : list Z) :
  NoDup ids -> NoDup (ids ++ [Sqlite.next_rowid ids]).
Proof.
  intros Hnd. apply NoDup_app. split; [exact Hnd|]. split.
  - intros i Hi Hnew. apply list_elem_of_In in Hi.
    apply list_elem_of_In in Hnew. destruct Hnew as [Hnew|[]].
    apply next_rowid_fresh in Hi. lia.
  - apply NoDup_cons. split; [intros H; inversion H|apply NoDup_nil; exact I].
Qed.

Lemma NoDup_category_ids_new (cats : list Sqlite.category_row) (c : string) :
  NoDup (map Sqlite.category_id cats) ->
  NoDup (map Sqlite.category_id
           (cats ++ [{| Sqlite.category_id :=
                          Sqlite.next_rowid (map Sqlite.category_id cats);
                        Sqlite.category_name := c |}])).
Proof.
  intros Hnd. rewrite map_app. simpl. apply NoDup_next_rowid. exact Hnd.
Qed.

Lemma find_joined_old (db : Sqlite.database) (itemId : Z) (cats : list Sqlite.category_row) :
  (forall i, In i (Sqlite.items db) -> Sqlite.item_id i <> itemId) ->
  List.find (fun r : Sqlite.item_row * Sqlite.category_row =>
               Sqlite.item_id (fst r) =? itemId)
    (Sqlite.joined {| Sqlite.categories := cats; Sqlite.items := Sqlite.items db |})
  = None.
Proof.
  intros Hno.
  destruct (List.find _ _) as [r|] eqn:Hf; [|reflexivity].
  apply find_some in Hf as [Hin Hid]. apply joined_In in Hin as [Hi _].
  apply Z.eqb_eq in Hid. exfalso. exact (Hno _ Hi Hid).
Qed.

Lemma joined_snoc (cats : list Sqlite.category_row) (its : list Sqlite.item_row)
    (it : Sqlite.item_row) :
  Sqlite.joined {| Sqlite.categories := cats; Sqlite.items := its ++ [it] |}
  = Sqlite.joined {| Sqlite.categories := cats; Sqlite.items := its |}
    ++ map (pair it)
         (List.filter (fun c => Sqlite.item_category_id it =? Sqlite.category_id c) cats).
Proof.
  unfold Sqlite.joined. simpl. rewrite flat_map_app. simpl.
  rewrite app_nil_r. reflexivity.
Qed.

(** The row just inserted is the one the by-id query finds. *)
Lemma selectById_new_item (cats : list Sqlite.category_row) (its : list Sqlite.item_row)
    (row : Sqlite.category_row) (name fileName : string) :
  NoDup (map Sqlite.category_id cats) ->
  In row cats ->
  let itemId := Sqlite.next_rowid (map Sqlite.item_id its) in
  Sqlite.selectById None
    {| Sqlite.categories := cats;
       Sqlite.items :=
         its ++ [{| Sqlite.item_id := itemId; Sqlite.item_name := name;
                    Sqlite.item_image_name := fileName;
                    Sqlite.item_category_id := Sqlite.category_id row |}] |}
    itemId
  = Ok {| Name := name; Category := Sqlite.category_name row; ImageName := fileName |}.
Proof.
  intros Hnd Hin itemId. unfold Sqlite.selectById.
  rewrite joined_snoc. simpl.
  rewrite (filter_unique_id cats row Hnd Hin). simpl.
  rewrite find_app_None.
  - simpl. rewrite Z.eqb_refl. reflexivity.
  - apply (find_joined_old {| Sqlite.categories := cats; Sqlite.items := its |}).
    simpl. intros i Hi Heq.
    assert (Hlt : Sqlite.item_id i < itemId).
    { apply next_rowid_fresh. apply in_map. exact Hi. }
    lia.
Qed.

(** C4.  In a store whose category ids are distinct (the primary key), and
    with no failure of the driver, [saveItem name category imageRef] with
    [imageRef = hex(sha256(bytes)) + ".jpg"] succeeds and adds one item row,
    and [getInfoById] on the id of that row answers 200 with exactly
    [{name, category, imageRef}]. *)
Theorem create_then_getById (db : Sqlite.database) (name category : string)
    (bytes : list byte) (id : string) :
  NoDup (map Sqlite.category_id (Sqlite.categories db)) ->
  let imageRef := hex (SHA256.Sum256 bytes) +:+ ".jpg" in
  let r := Sqlite.saveItem Sqlite.no_faults db name category imageRef in
  let itemId := Sqlite.next_rowid (map Sqlite.item_id (Sqlite.items db)) in
  Atoi id = Ok itemId ->
  returned r = None /\
  (exists categoryId,
     Sqlite.items (committed r)
     = Sqlite.items db ++
       [{| Sqlite.item_id := itemId; Sqlite.item_name := name;
           Sqlite.item_image_name := imageRef;
           Sqlite.item_category_id := categoryId |}]) /\
  Sqlite.getInfoById None (committed r) id
  = JSON StatusOK
      (BodyItem {| Name := name; Category := category; ImageName := imageRef |}).
Proof.
  intros Hnd imageRef r itemId Hid. clearbody imageRef. subst itemId.
  pose proof (saveItem_unfold Sqlite.no_faults db name category imageRef) as H.
  fold r in H. cbv zeta in H. simpl in H.
  unfold Sqlite.getInfoById. rewrite Hid.
  destruct (List.find (fun r => String.eqb (Sqlite.category_name r) category)
                      (Sqlite.categories db)) as [row|] eqn:Hf.
  - rewrite (checkCategoryId_found db category row Hf) in H.
    destruct H as [Hr [Hdb _]]. simpl in Hdb.
    apply find_some in Hf as [Hin Hname]. apply String.eqb_eq in Hname.
    split; [exact Hr|]. rewrite Hdb. split; [eexists; reflexivity|].
    rewrite (selectById_new_item (Sqlite.categories db) (Sqlite.items db) row
               name imageRef Hnd Hin).
    rewrite Hname. reflexivity.
  - rewrite (checkCategoryId_new db category Hf) in H.
    destruct H as [Hr [Hdb _]]. simpl in Hdb.
    split; [exact Hr|]. rewrite Hdb. split; [eexists; reflexivity|].
    set (row := {| Sqlite.category_id :=
                     Sqlite.next_rowid (map Sqlite.category_id (Sqlite.categories db));
                   Sqlite.category_name := category |}).
    change (Sqlite.next_rowid (map Sqlite.category_id (Sqlite.categories db)))
      with (Sqlite.category_id row).
    rewrite (selectById_new_item (Sqlite.categories db ++ [row]) (Sqlite.items db) row
               name imageRef).
    + reflexivity.
    + apply NoDup_category_ids_new. exact Hnd.
    + apply in_or_app. right. left. reflexivity.
Qed.

Lemma create_then_getById_witness :
  NoDup (map Sqlite.category_id (Sqlite.categories sample_db)) /\
  Atoi "3" = Ok 3 /\
  Sqlite.getInfoById None
    (committed (Sqlite.saveItem Sqlite.no_faults sample_db "tent" "outdoor"
                  (hex (SHA256.Sum256 [x61; x62; x63]) +:+ ".jpg")))
    "3"
  = JSON StatusOK
      (BodyItem {| Name := "tent"; Category := "outdoor";
                   ImageName := hex (SHA256.Sum256 [x61; x62; x63]) +:+ ".jpg" |}).
Proof.
  assert (Hnd : NoDup (map Sqlite.category_id (Sqlite.categories sample_db))).
  { simpl. apply NoDup_cons. split; [intros H; inversion H|apply NoDup_nil; exact I]. }
  split; [exact Hnd|]. split; [reflexivity|].
  apply (create_then_getById sample_db "tent" "outdoor" [x61; x62; x63] "3" Hnd).
  reflexivity.
Defined.

Example create_then_getById_scenario :
  Sqlite.getInfoById None
    (committed (Sqlite.saveItem Sqlite.no_faults Sqlite.empty_db "jacket" "fashion"
                  "abc123.jpg")) "1"
  = JSON StatusOK
      (BodyItem {| Name := "jacket"; Category := "fashion"; ImageName := "abc123.jpg" |}).
Proof. reflexivity. Qed.

(** ** The SQLite backend: search *)

Lemma length_app_string (a b : string) :
  String.length (a +:+ b) = (String.length a + String.length b)%nat.
Proof. induction a as [|c a IH]; simpl; [reflexivity|]. rewrite IH. reflexivity. Qed.

(** Facts about two bytes, checked on the 65536 pairs. *)
Lemma forall_ascii2 (P : ascii -> ascii -> bool) :
  forallb (fun a => forallb (P a) (map ascii_of_nat (seq 0 256)))
          (map ascii_of_nat (seq 0 256)) = true ->
  forall a d, P a d = true.
Proof.
  intros H a d.
  assert (Hin : forall x, In x (map ascii_of_nat (seq 0 256))).
  { intros x. apply in_map_iff. exists (nat_of_ascii x).
    split; [apply ascii_nat_embedding|].
    apply in_seq. pose proof (nat_ascii_bounded x). lia. }
  rewrite forallb_forall in H. specialize (H a (Hin a)).
  rewrite forallb_forall in H. exact (H d (Hin d)).
Qed.

Lemma bytes_compare (a d : ascii) :
  implb (plain_byte a)
    (Bool.eqb ((byte_val d =? sqlite3Toupper (byte_val a))
               || (byte_val d =? sqlite3Tolower (byte_val a)))
              (eqb_nocase a d)
     && (if byte_val d <? 192
         then Bool.eqb (char_matches (byte_val a) (byte_val d)) (eqb_nocase a d)
         else negb (eqb_nocase a d))) = true.
Proof. revert a d. apply forall_ascii2. vm_compute. reflexivity. Qed.

Lemma scan_test (a d : ascii) :
  plain_byte a = true ->
  (byte_val d =? sqlite3Toupper (byte_val a))
  || (byte_val d =? sqlite3Tolower (byte_val a)) = eqb_nocase a d.
Proof.
  intros Ha. pose proof (bytes_compare a d) as H. rewrite Ha in H. simpl in H.
  apply andb_true_iff in H as [H _]. apply Bool.eqb_prop in H. exact H.
Qed.

Lemma compare_test (a d : ascii) :
  plain_byte a = true ->
  (byte_val d <? 192) = true ->
  char_matches (byte_val a) (byte_val d) = eqb_nocase a d.
Proof.
  intros Ha Hd. pose proof (bytes_compare a d) as H. rewrite Ha, Hd in H. simpl in H.
  apply andb_true_iff in H as [_ H]. apply Bool.eqb_prop in H. exact H.
Qed.

Lemma lead_never_matches (a d : ascii) :
  plain_byte a = true -> (byte_val d <? 192) = false -> eqb_nocase a d = false.
Proof.
  intros Ha Hd. pose proof (bytes_compare a d) as H. rewrite Ha, Hd in H. simpl in H.
  apply andb_true_iff in H as [_ H]. apply negb_true_iff in H. exact H.
Qed.

Lemma plain_byte_range (a : ascii) :
  plain_byte a = true ->
  1 <= byte_val a <= 127 /\ byte_val a <> matchAll /\ byte_val a <> matchOne.
Proof.
  unfold plain_byte. intros H.
  apply andb_true_iff in H as [H H4]. apply andb_true_iff in H as [H H3].
  apply andb_true_iff in H as [H1 H2].
  apply Z.leb_le in H1, H2. apply negb_true_iff in H3, H4.
  apply Z.eqb_neq in H3, H4. auto.
Qed.

Lemma compare_one_test (c : Z) (k : string -> like_result) (s : string) :
  compare_one c k s
  = if char_matches c (fst (sqlite3Utf8Read s)) then k (snd (sqlite3Utf8Read s))
    else SQLITE_NOMATCH.
Proof.
  unfold compare_one, char_matches.
  destruct (sqlite3Utf8Read s) as [c2 rest]. simpl.
  destruct (c =? c2); [reflexivity|]. simpl.
  destruct ((sqlite3Tolower c =? sqlite3Tolower c2) && (c <? 128) && (c2 <? 128));
    [reflexivity|]. simpl.
  destruct ((c =? matchOne) && negb (c2 =? 0)); reflexivity.
Qed.

(** A character that a lead byte from 0xc0 up starts is never below 0x80. *)
Lemma read_lead (b : ascii) (rest : string) :
  (byte_val b <? 192) = false ->
  128 <= fst (sqlite3Utf8Read (String b rest)).
Proof.
  intros Hb. unfold sqlite3Utf8Read. rewrite Hb.
  destruct (utf8_continue _ rest) as [c rest']. simpl.
  destruct (c <? 128) eqn:E; simpl; [lia|].
  apply Z.ltb_ge in E.
  destruct ((Z.land c 4294965248 =? 55296) || (Z.land c 4294967294 =? 65534)); lia.
Qed.

(** One plain pattern byte against the string. *)
Lemma compare_one_plain (a : ascii) (k : string -> like_result) (s : string) :
  plain_byte a = true ->
  compare_one (byte_val a) k s
  = match s with
    | String d rest => if eqb_nocase a d then k rest else SQLITE_NOMATCH
    | EmptyString => SQLITE_NOMATCH
    end.
Proof.
  intros Ha. rewrite compare_one_test.
  destruct (plain_byte_range a Ha) as [[H1 H2] [H3 H4]].
  destruct s as [|d rest].
  - unfold char_matches, matchOne in *. simpl.
    destruct (Z.eqb_spec (byte_val a) 0); [lia|].
    destruct (Z.eqb_spec (byte_val a) 95); [contradiction|].
    rewrite andb_false_r, !orb_false_r. 
    destruct ((sqlite3Tolower (byte_val a) =? sqlite3Tolower 0)
              && (byte_val a <? 128)) eqn:E; [|reflexivity].
    exfalso. apply andb_true_iff in E as [E _]. apply Z.eqb_eq in E.
    unfold sqlite3Tolower in E. rewrite (Z.mod_small (byte_val a) 256) in E by lia.
    change (0 mod 256) with 0 in E. simpl in E.
    destruct ((65 <=? byte_val a) && (byte_val a <=? 90)); lia.
  - destruct (byte_val d <? 192) eqn:Hd.
    + rewrite <- (compare_test a d Ha Hd).
      unfold sqlite3Utf8Read. rewrite Hd. reflexivity.
    + rewrite (lead_never_matches a d Ha Hd).
      pose proof (read_lead d rest Hd) as Hc2.
      unfold char_matches, matchOne in *.
      destruct (Z.eqb_spec (byte_val a) (fst (sqlite3Utf8Read (String d rest)))); [lia|].
      destruct (Z.eqb_spec (byte_val a) 95); [contradiction|].
      destruct (Z.ltb_spec (fst (sqlite3Utf8Read (String d rest))) 128); [lia|].
      rewrite !andb_false_r. reflexivity.
Qed.

Lemma plain_keyword_cons (a : ascii) (k : string) :
  plain_keyword (String a k) = plain_byte a && plain_keyword k.
Proof. reflexivity. Qed.

(** A plain keyword and then [%], against the start of the string. *)
Lemma patternCompare_prefix (k : string) :
  plain_keyword k = true ->
  forall s,
    patternCompare false (codes k ++ [matchAll]) s
    = if HasPrefix_nocase s k then SQLITE_MATCH else SQLITE_NOMATCH.
Proof.
  induction k as [|a k IH]; intros Hk s; [reflexivity|].
  rewrite plain_keyword_cons in Hk. apply andb_true_iff in Hk as [Ha Hk].
  destruct (plain_byte_range a Ha) as [_ [H3 _]].
  change (codes (String a k) ++ [matchAll])
    with (byte_val a :: (codes k ++ [matchAll])).
  cbn [patternCompare].
  destruct (Z.eqb_spec (byte_val a) matchAll); [contradiction|].
  rewrite (compare_one_plain a _ s Ha).
  destruct s as [|d rest]; [reflexivity|].
  simpl. destruct (eqb_nocase a d); [apply (IH Hk)|reflexivity].
Qed.

(** The same behind a [%]: anywhere in the string. *)
Lemma patternCompare_anywhere (k : string) :
  plain_keyword k = true ->
  forall s,
    patternCompare true (codes k ++ [matchAll]) s
    = if Contains_nocase s k then SQLITE_MATCH else SQLITE_NOWILDCARDMATCH.
Proof.
  intros Hk s. destruct k as [|a k].
  { destruct s; reflexivity. }
  rewrite plain_keyword_cons in Hk. apply andb_true_iff in Hk as [Ha Hk].
  destruct (plain_byte_range a Ha) as [[_ H2] [H3 H4]].
  change (codes (String a k) ++ [matchAll])
    with (byte_val a :: (codes k ++ [matchAll])).
  cbn [patternCompare].
  destruct (Z.eqb_spec (byte_val a) matchAll); [contradiction|].
  destruct (Z.eqb_spec (byte_val a) matchOne); [contradiction|].
  destruct (Z.ltb_spec (byte_val a) 128); [|lia].
  induction s as [|d rest IH]; [reflexivity|].
  cbn [scan_bytes]. fold (scan_bytes (byte_val a)
                            (patternCompare false (codes k ++ [matchAll]))).
  rewrite (scan_test a d Ha), (patternCompare_prefix k Hk rest), IH.
  cbn [Contains_nocase HasPrefix_nocase].
  destruct (eqb_nocase a d); simpl; [|reflexivity].
  destruct (HasPrefix_nocase rest k); reflexivity.
Qed.

Lemma c_string_text (s : string) : ascii_text s = true -> c_string s = s.
Proof.
  induction s as [|c s IH]; simpl; [reflexivity|]. intros H.
  apply andb_true_iff in H as [H Hs]. apply andb_true_iff in H as [H1 _].
  apply Z.leb_le in H1. destruct (Z.eqb_spec (byte_val c) 0); [lia|].
  rewrite (IH Hs). reflexivity.
Qed.

Lemma runes_upto_text (s : string) (n : nat) :
  ascii_text s = true -> (String.length s <= n)%nat ->
  map fst (runes_upto n s) = codes s.
Proof.
  revert n. induction s as [|c s IH]; intros n H Hn.
  - destruct n; reflexivity.
  - simpl in H. apply andb_true_iff in H as [H Hs].
    apply andb_true_iff in H as [_ H2]. apply Z.leb_le in H2.
    destruct n as [|n]; [simpl in Hn; lia|].
    cbn [runes_upto]. unfold sqlite3Utf8Read.
    destruct (Z.ltb_spec (byte_val c) 192); [|lia].
    simpl. rewrite IH; [reflexivity|exact Hs|simpl in Hn; lia].
Qed.

Lemma codes_app (a b : string) : codes (a +:+ b) = codes a ++ codes b.
Proof. induction a as [|c a IH]; simpl; [reflexivity|]. rewrite IH. reflexivity. Qed.

Lemma ascii_text_app (a b : string) :
  ascii_text (a +:+ b) = ascii_text a && ascii_text b.
Proof.
  induction a as [|c a IH]; simpl; [reflexivity|].
  rewrite IH, andb_assoc. reflexivity.
Qed.

Lemma plain_keyword_text (k : string) : plain_keyword k = true -> ascii_text k = true.
Proof.
  induction k as [|a k IH]; [reflexivity|]. simpl. intros H.
  apply andb_true_iff in H as [H Hk]. apply andb_true_iff in H as [H _].
  apply andb_true_iff in H as [H _]. rewrite H, (IH Hk). reflexivity.
Qed.

(** The pattern of [searchItems] for a plain keyword. *)
Lemma like_contains (k : string) :
  plain_keyword k = true ->
  forall s, like ("%" +:+ k +:+ "%") s = Contains_nocase (c_string s) k.
Proof.
  intros Hk s. unfold like.
  assert (Ht : ascii_text ("%" +:+ k +:+ "%") = true).
  { change ("%" +:+ k +:+ "%") with (String "%" (k +:+ "%")).
    simpl. rewrite ascii_text_app, (plain_keyword_text k Hk). reflexivity. }
  rewrite (c_string_text _ Ht). unfold runes.
  rewrite (runes_upto_text _ _ Ht (Nat.le_refl _)).
  change ("%" +:+ k +:+ "%") with (String "%" (k +:+ "%")).
  cbn [codes]. rewrite codes_app.
  change (codes "%") with [matchAll].
  change (byte_val "%") with matchAll.
  cbn [patternCompare]. rewrite Z.eqb_refl.
  rewrite (patternCompare_anywhere k Hk).
  destruct (Contains_nocase (c_string s) k); reflexivity.
Qed.

Lemma like_empty_keyword (s : string) : like ("%" +:+ "" +:+ "%") s = true.
Proof. rewrite (like_contains "" eq_refl). destruct (c_string s); reflexivity. Qed.

Lemma filter_all {A : Type} (p : A -> bool) (l : list A) :
  (forall x, p x = true) -> List.filter p l = l.
Proof.
  intros Hp. induction l as [|x l IH]; simpl; [reflexivity|].
  rewrite Hp, IH. reflexivity.
Qed.

Lemma HasPrefix_nocase_ToLower (s k : string) :
  HasPrefix_nocase s k = HasPrefix (ToLower s) (ToLower k).
Proof.
  revert s. induction k as [|c k IH]; intros s; [reflexivity|].
  destruct s as [|d s]; [reflexivity|]. simpl. rewrite IH. reflexivity.
Qed.

Lemma Contains_nocase_ToLower (s k : string) :
  Contains_nocase s k = Contains (ToLower s) (ToLower k).
Proof.
  induction s as [|d s IH]; simpl.
  - rewrite (HasPrefix_nocase_ToLower "" k). reflexivity.
  - rewrite (HasPrefix_nocase_ToLower (String d s) k), IH. reflexivity.
Qed.

Lemma ScanRowsToItems_ok (rows : list (Sqlite.item_row * Sqlite.category_row)) :
  Sqlite.ScanRowsToItems None rows = Ok {| items_of := map list_view rows |}.
Proof. destruct rows; reflexivity. Qed.

Lemma searchItems_filter (db : Sqlite.database) (keyword : string) :
  Z.of_nat (String.length keyword) + 2 <= SQLITE_MAX_LIKE_PATTERN_LENGTH ->
  Sqlite.searchItems None None db keyword
  = found (List.filter
             (fun r => like ("%" +:+ keyword +:+ "%") (Sqlite.item_name (fst r)))
             (Sqlite.joined db)).
Proof.
  intros Hlen. unfold Sqlite.searchItems.
  assert (Hkey : String.length ("%" +:+ keyword +:+ "%") = S (S (String.length keyword))).
  { change ("%" +:+ keyword +:+ "%") with (String "%" (keyword +:+ "%")).
    simpl. rewrite length_app_string. simpl. lia. }
  rewrite Hkey.
  destruct (Z.ltb_spec SQLITE_MAX_LIKE_PATTERN_LENGTH
              (Z.of_nat (S (S (String.length keyword))))); [lia|].
  rewrite ScanRowsToItems_ok. reflexivity.
Qed.

(** Under the primary key and with valid references, the join has each item
    once, in the order of the items. *)
Lemma joined_every_item (db : Sqlite.database) :
  NoDup (map Sqlite.category_id (Sqlite.categories db)) ->
  valid_refs db = true ->
  map fst (Sqlite.joined db) = Sqlite.items db.
Proof.
  intros Hnd Hv. rewrite valid_refs_spec in Hv. unfold Sqlite.joined.
  induction (Sqlite.items db) as [|i its IH]; [reflexivity|].
  simpl. rewrite map_app, IH by (intros j Hj; apply Hv; right; exact Hj).
  destruct (Hv i (or_introl eq_refl)) as [c [Hc Heq]].
  rewrite Heq, (filter_unique_id _ c Hnd Hc). reflexivity.
Qed.

(** C6, as it is worded, fails.  On the sample store "JACK" finds the item
    named "jacket", whose name does not contain "JACK", and "_" finds both
    items, though neither name contains an underscore.  And a name that
    contains the keyword is not always found: "b" does not find the name
    "a\0b", which SQLite reads up to its NUL byte, and the keyword of the
    one byte a9 does not find "café", whose last character c3 a9 SQLite
    compares as a whole. *)
Lemma searchItems_substring_counterexample :
  let claimed db k :=
    found (List.filter (fun r => Contains (Sqlite.item_name (fst r)) k)
                       (Sqlite.joined db)) in
  Sqlite.searchItems None None sample_db "JACK" <> claimed sample_db "JACK" /\
  Sqlite.searchItems None None sample_db "_" <> claimed sample_db "_" /\
  Sqlite.searchItems None None odd_db "b" <> claimed odd_db "b" /\
  Sqlite.searchItems None None odd_db (String "169" EmptyString)
  <> claimed odd_db (String "169" EmptyString).
Proof.
  repeat split; vm_compute; discriminate.
Qed.

(** C6, amended.  For a keyword [k] of ASCII bytes other than NUL and the
    wildcards [%] and [_] of [LIKE], short enough for the pattern to stay
    within SQLite's limit, and with no failure of the driver, [searchItems]
    returns exactly the rows of the join of items and categories whose item
    name, read up to its first NUL byte, contains [k] as a substring when
    ASCII letters are compared without case, each with the item name and
    the category name.  The empty keyword returns every row of the join,
    which is every stored item, once, when category ids are distinct and
    every item refers to a category. *)
Theorem searchItems_substring_nocase (db : Sqlite.database) (k : string) :
  (plain_keyword k = true ->
   Z.of_nat (String.length k) + 2 <= SQLITE_MAX_LIKE_PATTERN_LENGTH ->
   Sqlite.searchItems None None db k
   = found (List.filter
              (fun r => Contains (ToLower (c_string (Sqlite.item_name (fst r))))
                                 (ToLower k))
              (Sqlite.joined db))) /\
  Sqlite.searchItems None None db "" = found (Sqlite.joined db) /\
  (NoDup (map Sqlite.category_id (Sqlite.categories db)) ->
   valid_refs db = true ->
   map fst (Sqlite.joined db) = Sqlite.items db).
Proof.
  split; [|split].
  - intros Hk Hlen. rewrite (searchItems_filter db k Hlen). f_equal.
    apply List.filter_ext. intros r.
    rewrite (like_contains k Hk). apply Contains_nocase_ToLower.
  - rewrite searchItems_filter by (vm_compute; discriminate). f_equal.
    apply filter_all. intros r. apply like_empty_keyword.
  - apply joined_every_item.
Qed.

Example search_nul :
  Sqlite.searchItems None None odd_db "b" = found [].
Proof. vm_compute. reflexivity. Qed.

Example search_jack :
  Sqlite.searchItems None None sample_db "jack"
  = JSON StatusOK
      (BodyItems {| items_of :=
         [{| Name := "jacket"; Category := "fashion"; ImageName := "" |}] |}).
Proof. reflexivity. Qed.

Example search_shoe :
  Sqlite.searchItems None None sample_db "shoe"
  = JSON StatusOK (BodyItems {| items_of := [] |}).
Proof. reflexivity. Qed.

(** ** The SQLite backend: what every call of saveItem maintains *)

Lemma empty_db_well_formed : well_formed Sqlite.empty_db.
Proof.
  unfold well_formed. simpl. repeat split; try apply NoDup_nil; auto.
Qed.

(** Whatever the driver answers, [saveItem] takes a well-formed store to a
    well-formed store. *)
Lemma saveItem_keeps_well_formed (f : Sqlite.faults) (db : Sqlite.database)
    (name category fileName : string) :
  well_formed db ->
  well_formed (committed (Sqlite.saveItem f db name category fileName)).
Proof.
  intros Hwf.
  pose proof (saveItem_unfold f db name category fileName) as H. cbv zeta in H.
  pose proof (checkCategoryId_begun f category db) as Hc.
  destruct (Sqlite.begin_fault f) as [why|].
  { destruct H as [_ [-> _]]. exact Hwf. }
  destruct (Sqlite.checkCategoryId f category (begun db)) as [[tx logs] [id [err|]]].
  { destruct H as [_ [-> _]]. exact Hwf. }
  destruct (Sqlite.insert_fault f) as [why|].
  { destruct H as [_ [-> _]]. exact Hwf. }
  destruct (Sqlite.commit_fault f) as [why|].
  { destruct H as [_ [-> _]]. exact Hwf. }
  destruct H as [_ [Hdb _]]. destruct Hc as [_ [_ [Hin Hcats]]].
  cbv zeta in Hin, Hcats.
  destruct Hwf as [Hcid [Hiid [Hv Hnames]]].
  set (row := {| Sqlite.category_id := id; Sqlite.category_name := category |}) in *.
  assert (Hsub : forall c, In c (Sqlite.categories db) ->
                           In c (Sqlite.categories (Sqlite.pending tx))).
  { intros c Hcin. destruct Hcats as [-> | [-> _]]; [exact Hcin|].
    apply in_or_app. left. exact Hcin. }
  rewrite Hdb. unfold well_formed. simpl. repeat split.
  - destruct Hcats as [-> | [-> [_ Hid]]]; [exact Hcid|].
    subst row. rewrite Hid. apply NoDup_category_ids_new. exact Hcid.
  - rewrite map_app. simpl. apply NoDup_next_rowid. exact Hiid.
  - eapply (valid_refs_extend db _ row); simpl; eauto.
  - intros c. destruct Hcats as [-> | [-> [Hzero _]]]; [apply Hnames|].
    rewrite count_named_app. unfold count_named at 2. simpl.
    destruct (String.eqb category c) eqn:E.
    + apply String.eqb_eq in E. subst c. rewrite Hzero. simpl. lia.
    + simpl. specialize (Hnames c). lia.
Qed.

(** ** More on the image store *)

Lemma eqb_length_neq (a b : string) :
  String.length a <> String.length b -> String.eqb a b = false.
Proof.
  intros Hl. apply String.eqb_neq. intros ->. apply Hl. reflexivity.
Qed.

Lemma substring_all (s : string) : substring 0 (String.length s) s = s.
Proof. induction s as [|c s IH]; simpl; [reflexivity|]. rewrite IH. reflexivity. Qed.

Lemma HasSuffix_refl (s : string) : HasSuffix s s = true.
Proof.
  unfold HasSuffix. rewrite Nat.leb_refl, Nat.sub_diag, substring_all.
  apply String.eqb_refl.
Qed.

Lemma HasSuffix_app (pre suffix : string) : HasSuffix (pre +:+ suffix) suffix = true.
Proof.
  induction pre as [|c pre IH]; [apply HasSuffix_refl|].
  change (String c pre +:+ suffix) with (String c (pre +:+ suffix)).
  rewrite HasSuffix_cons; [exact IH|]. rewrite length_app_string. lia.
Qed.

Lemma HasSuffix_length (s suffix : string) :
  HasSuffix s suffix = true -> (String.length suffix <= String.length s)%nat.
Proof.
  unfold HasSuffix. intros H. apply andb_true_iff in H as [H _].
  apply Nat.leb_le. exact H.
Qed.

(** A path element that [path.Clean] keeps as it is. *)
Lemma clean_step_keeps (rooted : bool) (out : list string) (e : string) :
  (3 <= String.length e)%nat -> clean_step rooted out e = e :: out.
Proof.
  intros Hl. unfold clean_step.
  rewrite !eqb_length_neq by (simpl; lia). reflexivity.
Qed.

Lemma no_slash_app (a b : string) :
  no_slash (a +:+ b) = no_slash a && no_slash b.
Proof.
  induction a as [|c a IH]; simpl; [reflexivity|].
  rewrite IH, andb_assoc. reflexivity.
Qed.

Lemma hex_digit_no_slash (n : N) : Ascii.eqb (hex_digit n) "/" = false.
Proof.
  unfold hex_digit. generalize (N.to_nat n). intros m.
  do 16 (destruct m as [|m]; [reflexivity|]). reflexivity.
Qed.

Lemma hex_no_slash (bs : list byte) : no_slash (hex bs) = true.
Proof.
  induction bs as [|b bs IH]; simpl; [reflexivity|].
  rewrite !hex_digit_no_slash, IH. reflexivity.
Qed.

Lemma hex_length (bs : list byte) : String.length (hex bs) = (2 * length bs)%nat.
Proof. induction bs as [|b bs IH]; simpl; [reflexivity|]. rewrite IH. lia. Qed.

Lemma Sum256_length (data : list byte) : length (SHA256.Sum256 data) = 32%nat.
Proof.
  unfold SHA256.Sum256.
  destruct (SHA256.blocks _ _ _) as [a b c d e f g h]. reflexivity.
Qed.

Lemma fileName_length (data : list byte) :
  String.length (fileName_of (SHA256.Sum256 data)) = 68%nat.
Proof.
  unfold fileName_of. rewrite length_app_string, hex_length, Sum256_length.
  reflexivity.
Qed.

Lemma fileName_no_slash (data : list byte) :
  no_slash (fileName_of (SHA256.Sum256 data)) = true.
Proof. unfold fileName_of. rewrite no_slash_app, hex_no_slash. reflexivity. Qed.

(** X3.  The name [saveImage] gives to a blob is always 68 bytes long, 64
    hexadecimal digits and ".jpg", and is one path element: it holds no
    slash, so it names a file directly in the image directory. *)
Theorem fileName_is_plain (data : list byte) :
  String.length (fileName_of (SHA256.Sum256 data)) = 68%nat /\
  no_slash (fileName_of (SHA256.Sum256 data)) = true /\
  HasSuffix (fileName_of (SHA256.Sum256 data)) ".jpg" = true /\
  Join [ImgDir; fileName_of (SHA256.Sum256 data)]
  = "images/" +:+ fileName_of (SHA256.Sum256 data).
Proof.
  split; [apply fileName_length|]. split; [apply fileName_no_slash|].
  split; [apply HasSuffix_app|].
  rewrite (Join_element _ (fileName_no_slash data)).
  rewrite !eqb_length_neq by (rewrite fileName_length; simpl; lia).
  reflexivity.
Qed.

(** Where [saveImage] writes is where [getImg] reads. *)
Lemma image_paths_agree (fileName : string) :
  no_slash fileName = true ->
  (3 <= String.length fileName)%nat ->
  Clean (imagePath_of fileName) = "images/" +:+ fileName /\
  Join [ImgDir; fileName] = "images/" +:+ fileName.
Proof.
  intros Hns Hl. split.
  - unfold imagePath_of, Clean.
    change (String.eqb ("./images/" +:+ fileName) "") with false.
    change (is_rooted ("./images/" +:+ fileName)) with false. cbv iota.
    change ("./images/" +:+ fileName)
      with ("." +:+ String "/" ("images" +:+ String "/" fileName)).
    rewrite (split_slash_app "." _ eq_refl), (split_slash_app "images" _ eq_refl),
      (split_slash_element _ Hns).
    change (fold_left (clean_step false) ["."; "images"; fileName] [])
      with (clean_step false ["images"] fileName).
    rewrite (clean_step_keeps _ _ _ Hl). reflexivity.
  - rewrite (Join_element _ Hns).
    rewrite !eqb_length_neq by (simpl; lia). reflexivity.
Qed.

Lemma getImg_stored_name (fs : filesystem) (fileName : string) (content : list byte) :
  no_slash fileName = true ->
  HasSuffix fileName ".jpg" = true ->
  ReadFile fs (imagePath_of fileName) = Some content ->
  getImg fs fileName = File content.
Proof.
  intros Hns Hs Hr.
  assert (Hl : (3 <= String.length fileName)%nat).
  { apply HasSuffix_length in Hs. simpl in Hs. lia. }
  destruct (image_paths_agree fileName Hns Hl) as [Hc Hj].
  assert (Hread : ReadFile fs (Join [ImgDir; fileName]) = Some content).
  { unfold ReadFile in *. rewrite Hj.
    change (Clean ("images/" +:+ fileName)) with (Join [ImgDir; fileName]).
    rewrite Hj, <- Hc. exact Hr. }
  unfold getImg. rewrite (HasSuffix_Join_element _ Hns), Hs. simpl.
  unfold Stat_ok, serve_file. rewrite Hread. cbv iota. rewrite Hread.
  reflexivity.
Qed.

Lemma getImg_after_saveImage (io : image_io) (fs fs' : filesystem)
    (b : list byte) (name : string) :
  saveImage io fs b = (fs', (name, None)) -> getImg fs' name = File b.
Proof.
  intros Hs. apply saveImage_success in Hs as [-> Hr].
  apply getImg_stored_name; [apply fileName_no_slash|apply HasSuffix_app|exact Hr].
Qed.

(** X4.  What [saveImage] stored, [getImg] serves: after any successful
    call of [saveImage] on the bytes [b], a request for the returned name is
    answered with exactly [b]. *)
Theorem saveImage_then_getImg (io : image_io) (fs : filesystem) (b : list byte) :
  (forall fs' name,
     saveImage io fs b = (fs', (name, None)) -> getImg fs' name = File b) /\
  getImg (fst (saveImage io_ok fs b)) (fst (snd (saveImage io_ok fs b))) = File b.
Proof.
  split; [intros fs' name; apply getImg_after_saveImage|].
  apply (getImg_after_saveImage io_ok fs). rewrite saveImage_io_ok. reflexivity.
Qed.

(** X1.  [saveImage] writes one file and no other: whatever the environment
    answers, every path that is not the path of the blob reads the same
    before and after. *)
Theorem saveImage_touches_one_file
    (io : image_io) (fs : filesystem) (b : list byte) (other : string) :
  Clean other <> Clean (imagePath_of (fileName_of (SHA256.Sum256 b))) ->
  ReadFile (fst (saveImage io fs b)) other = ReadFile fs other.
Proof.
  intros Hne. unfold saveImage.
  destruct (open_err io); [reflexivity|].
  destruct (read_err io); [reflexivity|].
  destruct (mkdir_err io); [reflexivity|].
  destruct (create_err io); [reflexivity|].
  destruct (write_err io) as [[why n]|]; simpl;
    unfold ReadFile, WriteFile; rewrite !lookup_insert_ne by congruence;
    reflexivity.
Qed.

Lemma saveImage_touches_one_file_witness :
  Clean "images/default.jpg"
  <> Clean (imagePath_of (fileName_of (SHA256.Sum256 [x61; x62; x63]))) /\
  ReadFile (fst (saveImage io_ok sample_fs [x61; x62; x63])) "images/default.jpg"
  = ReadFile sample_fs "images/default.jpg".
Proof.
  assert (Hne : Clean "images/default.jpg"
                <> Clean (imagePath_of (fileName_of (SHA256.Sum256 [x61; x62; x63])))).
  { vm_compute. discriminate. }
  split; [exact Hne|].
  apply (saveImage_touches_one_file io_ok sample_fs [x61; x62; x63]
           "images/default.jpg" Hne).
Defined.

(** X2.  A failing [saveImage] returns the empty name.  When the failure is
    before the write, the filesystem is as it was.  When [os.WriteFile]
    fails after [n] bytes, the blob file holds the first [n] bytes of the
    upload and nothing of what it held before. *)
Theorem saveImage_failure (io : image_io) (fs : filesystem) (b : list byte) :
  let r := saveImage io fs b in
  (snd (snd r) <> None -> fst (snd r) = "") /\
  (open_err io <> None \/ read_err io <> None \/
   mkdir_err io <> None \/ create_err io <> None ->
   fst r = fs /\ snd (snd r) <> None) /\
  (forall why n,
     open_err io = None -> read_err io = None ->
     mkdir_err io = None -> create_err io = None ->
     write_err io = Some (why, n) ->
     snd r = ("", Some (ErrOS why)) /\
     ReadFile (fst r) (imagePath_of (fileName_of (SHA256.Sum256 b)))
     = Some (firstn n b)).
Proof.
  intros r. subst r. unfold saveImage. split; [|split].
  - destruct (open_err io); [reflexivity|].
    destruct (read_err io); [reflexivity|].
    destruct (mkdir_err io); [reflexivity|].
    destruct (create_err io); [reflexivity|].
    destruct (write_err io) as [[why n]|]; [reflexivity|].
    simpl. intros H. contradiction.
  - intros H.
    destruct (open_err io); [split; [reflexivity|discriminate]|].
    destruct (read_err io); [split; [reflexivity|discriminate]|].
    destruct (mkdir_err io); [split; [reflexivity|discriminate]|].
    destruct (create_err io); [split; [reflexivity|discriminate]|].
    destruct H as [H|[H|[H|H]]]; contradiction.
  - intros why n -> -> -> -> ->. split; [reflexivity|].
    simpl. apply ReadFile_WriteFile.
Qed.

Lemma Join_parent (e : string) :
  no_slash e = true ->
  (3 <= String.length e)%nat ->
  Join [ImgDir; "../" +:+ e] = e.
Proof.
  intros Hns Hl.
  change (Join [ImgDir; "../" +:+ e]) with (Clean ("images/../" +:+ e)).
  unfold Clean.
  change (String.eqb ("images/../" +:+ e) "") with false.
  change (is_rooted ("images/../" +:+ e)) with false. cbv iota.
  change ("images/../" +:+ e)
    with ("images" +:+ String "/" (".." +:+ String "/" e)).
  rewrite (split_slash_app "images" _ eq_refl), (split_slash_app ".." _ eq_refl),
    (split_slash_element _ Hns).
  change (fold_left (clean_step false) ["images"; ".."; e] [])
    with (clean_step false [] e).
  rewrite (clean_step_keeps _ _ _ Hl). reflexivity.
Qed.

(** X6.  [getImg] does not keep the reference inside the image directory:
    for a file name [e] ending with ".jpg", the reference "../e" is
    answered with the file [e] of the working directory of the server. *)
Theorem getImg_leaves_image_directory
    (fs : filesystem) (e : string) (content : list byte) :
  no_slash e = true ->
  HasSuffix e ".jpg" = true ->
  ReadFile fs e = Some content ->
  Join [ImgDir; "../" +:+ e] = e /\
  getImg fs ("../" +:+ e) = File content.
Proof.
  intros Hns Hs Hr.
  assert (Hl : (3 <= String.length e)%nat).
  { apply HasSuffix_length in Hs. simpl in Hs. lia. }
  pose proof (Join_parent e Hns Hl) as Hj. split; [exact Hj|].
  unfold getImg. rewrite Hj, Hs. simpl.
  unfold Stat_ok, serve_file. rewrite Hr. cbv iota. rewrite Hr. reflexivity.
Qed.

Lemma getImg_leaves_image_directory_witness :
  no_slash "secret.jpg" = true /\
  HasSuffix "secret.jpg" ".jpg" = true /\
  getImg (WriteFile sample_fs "secret.jpg" [x2a]) "../secret.jpg" = File [x2a].
Proof.
  split; [reflexivity|]. split; [reflexivity|].
  apply (getImg_leaves_image_directory
           (WriteFile sample_fs "secret.jpg" [x2a]) "secret.jpg" [x2a]);
    reflexivity.
Defined.

(** ** More on the SQLite backend *)

Lemma find_app {A : Type} (p : A -> bool) (l1 l2 : list A) :
  List.find p (l1 ++ l2)
  = match List.find p l1 with
    | Some x => Some x
    | None => List.find p l2
    end.
Proof.
  induction l1 as [|x l1 IH]; simpl; [reflexivity|].
  destruct (p x); [reflexivity|exact IH].
Qed.

(** A category row with a fresh rowid joins no item whose reference is valid. *)
Lemma joined_new_category (db : Sqlite.database) (c : string) :
  valid_refs db = true ->
  Sqlite.joined
    {| Sqlite.categories :=
         Sqlite.categories db ++
         [{| Sqlite.category_id :=
               Sqlite.next_rowid (map Sqlite.category_id (Sqlite.categories db));
             Sqlite.category_name := c |}];
       Sqlite.items := Sqlite.items db |}
  = Sqlite.joined db.
Proof.
  intros Hv. rewrite valid_refs_spec in Hv. unfold Sqlite.joined. simpl.
  induction (Sqlite.items db) as [|i its IH]; [reflexivity|].
  simpl. rewrite IH by (intros j Hj; apply Hv; right; exact Hj).
  f_equal. f_equal. rewrite List.filter_app. simpl.
  destruct (Hv i (or_introl eq_refl)) as [row [Hrow Heq]].
  assert (Hlt : Sqlite.category_id row
                < Sqlite.next_rowid (map Sqlite.category_id (Sqlite.categories db))).
  { apply next_rowid_fresh. apply in_map. exact Hrow. }
  destruct (Z.eqb_spec (Sqlite.item_category_id i)
              (Sqlite.next_rowid (map Sqlite.category_id (Sqlite.categories db))));
    [lia|]. apply app_nil_r.
Qed.

(** What a successful [saveItem] adds to the join: one row, last. *)
Lemma saveItem_joined (f : Sqlite.faults) (db : Sqlite.database)
    (name category fileName : string) :
  NoDup (map Sqlite.category_id (Sqlite.categories db)) ->
  valid_refs db = true ->
  let r := Sqlite.saveItem f db name category fileName in
  returned r = None ->
  exists categoryId,
    Sqlite.joined (committed r)
    = Sqlite.joined db ++
      [({| Sqlite.item_id := Sqlite.next_rowid (map Sqlite.item_id (Sqlite.items db));
           Sqlite.item_name := name;
           Sqlite.item_image_name := fileName;
           Sqlite.item_category_id := categoryId |},
        {| Sqlite.category_id := categoryId; Sqlite.category_name := category |})].
Proof.
  intros Hnd Hv r Hret.
  pose proof (saveItem_unfold f db name category fileName) as H.
  fold r in H. cbv zeta in H.
  pose proof (checkCategoryId_begun f category db) as Hc.
  destruct (Sqlite.begin_fault f) as [why|].
  { destruct H as [Hr _]. congruence. }
  destruct (Sqlite.checkCategoryId f category (begun db)) as [[tx logs] [id [err|]]].
  { destruct H as [Hr _]. congruence. }
  destruct (Sqlite.insert_fault f) as [why|].
  { destruct H as [Hr _]. congruence. }
  destruct (Sqlite.commit_fault f) as [why|].
  { destruct H as [Hr _]. congruence. }
  destruct H as [_ [Hdb _]]. destruct Hc as [_ [_ [Hin Hcats]]].
  cbv zeta in Hin, Hcats. exists id.
  set (row := {| Sqlite.category_id := id; Sqlite.category_name := category |}) in *.
  assert (Hnd' : NoDup (map Sqlite.category_id (Sqlite.categories (Sqlite.pending tx)))).
  { destruct Hcats as [-> | [-> [_ Hid]]]; [exact Hnd|].
    subst row. rewrite Hid. apply NoDup_category_ids_new. exact Hnd. }
  assert (Hold : Sqlite.joined
                   {| Sqlite.categories := Sqlite.categories (Sqlite.pending tx);
                      Sqlite.items := Sqlite.items db |}
                 = Sqlite.joined db).
  { destruct Hcats as [-> | [-> [_ Hid]]]; [destruct db; reflexivity|].
    subst row. rewrite Hid. apply joined_new_category. exact Hv. }
  rewrite Hdb, joined_snoc, Hold. f_equal.
  pose proof (filter_unique_id _ row Hnd' Hin) as Hone.
  cbn [Sqlite.item_category_id]. cbn [Sqlite.category_id row] in Hone.
  rewrite Hone. reflexivity.
Qed.

Lemma readItems_ok (db : Sqlite.database) :
  Sqlite.readItems None None db
  = Ok {| items_of := map list_view (Sqlite.joined db) |}.
Proof. unfold Sqlite.readItems. apply ScanRowsToItems_ok. Qed.

(** X8.  Listing after adding.  In a store with distinct category ids and
    valid references, after a call of [saveItem] that returns nil the list
    of [readItems] holds the entries of before and the new item with its
    name and category, and nothing else (in whatever order the store lists
    them); the image name is not part of the list view. *)
Theorem saveItem_then_readItems (f : Sqlite.faults) (db : Sqlite.database)
    (name category fileName : string) :
  NoDup (map Sqlite.category_id (Sqlite.categories db)) ->
  valid_refs db = true ->
  let r := Sqlite.saveItem f db name category fileName in
  returned r = None ->
  exists before after,
    Sqlite.readItems None None db = Ok {| items_of := before |} /\
    Sqlite.readItems None None (committed r) = Ok {| items_of := after |} /\
    Permutation after
      ({| Name := name; Category := category; ImageName := "" |} :: before).
Proof.
  intros Hnd Hv r Hret.
  destruct (saveItem_joined f db name category fileName Hnd Hv Hret) as [cid Hj].
  fold r in Hj. exists (map list_view (Sqlite.joined db)). eexists.
  rewrite !readItems_ok, Hj, map_app. split; [reflexivity|]. split; [reflexivity|].
  symmetry. apply Permutation_cons_append.
Qed.

Lemma saveItem_then_readItems_witness :
  NoDup (map Sqlite.category_id (Sqlite.categories sample_db)) /\
  valid_refs sample_db = true /\
  returned (Sqlite.saveItem Sqlite.no_faults sample_db "tent" "outdoor" "t.jpg") = None /\
  exists before after,
    Sqlite.readItems None None sample_db = Ok {| items_of := before |} /\
    Sqlite.readItems None None
      (committed (Sqlite.saveItem Sqlite.no_faults sample_db "tent" "outdoor" "t.jpg"))
    = Ok {| items_of := after |} /\
    Permutation after
      ({| Name := "tent"; Category := "outdoor"; ImageName := "" |} :: before).
Proof.
  assert (Hnd : NoDup (map Sqlite.category_id (Sqlite.categories sample_db))).
  { simpl. apply NoDup_cons. split; [intros H; inversion H|apply NoDup_nil; exact I]. }
  split; [exact Hnd|]. split; [reflexivity|]. split; [reflexivity|].
  apply (saveItem_then_readItems Sqlite.no_faults sample_db "tent" "outdoor" "t.jpg"
           Hnd eq_refl eq_refl).
Defined.

(** X9.  Adding an item does not disturb the others.  In a store with
    distinct category ids and valid references whose item rowids are below
    the largest 64-bit integer, whatever the driver answers, [getInfoById]
    gives the same answer before and after a call of [saveItem] for every
    id other than the rowid of the new item, which is one more than the
    largest. *)
Theorem saveItem_keeps_lookups (f : Sqlite.faults) (db : Sqlite.database)
    (name category fileName : string) (id : string) (itemId : Z) :
  NoDup (map Sqlite.category_id (Sqlite.categories db)) ->
  valid_refs db = true ->
  Forall (fun i => Sqlite.item_id i < max_int) (Sqlite.items db) ->
  Atoi id = Ok itemId ->
  itemId <> Sqlite.next_rowid (map Sqlite.item_id (Sqlite.items db)) ->
  Sqlite.getInfoById None
    (committed (Sqlite.saveItem f db name category fileName)) id
  = Sqlite.getInfoById None db id.
Proof.
  intros Hnd Hv _ Hid Hne.
  destruct (returned (Sqlite.saveItem f db name category fileName)) as [e|] eqn:Hret.
  - pose proof (saveItem_unfold f db name category fileName) as H. cbv zeta in H.
    destruct (Sqlite.begin_fault f) as [why|].
    { destruct H as [_ [-> _]]. reflexivity. }
    destruct (Sqlite.checkCategoryId f category (begun db)) as [[tx logs] [cid [err|]]].
    { destruct H as [_ [-> _]]. reflexivity. }
    destruct (Sqlite.insert_fault f) as [why|].
    { destruct H as [_ [-> _]]. reflexivity. }
    destruct (Sqlite.commit_fault f) as [why|].
    { destruct H as [_ [-> _]]. reflexivity. }
    destruct H as [Hr _]. congruence.
  - destruct (saveItem_joined f db name category fileName Hnd Hv Hret) as [cid Hj].
    unfold Sqlite.getInfoById. rewrite Hid. unfold Sqlite.selectById.
    rewrite Hj, find_app. simpl.
    destruct (List.find _ (Sqlite.joined db)) as [row|]; [reflexivity|].
    destruct (Z.eqb_spec
                (Sqlite.next_rowid (map Sqlite.item_id (Sqlite.items db))) itemId);
      [congruence|reflexivity].
Qed.

Lemma saveItem_keeps_lookups_witness :
  NoDup (map Sqlite.category_id (Sqlite.categories sample_db)) /\
  valid_refs sample_db = true /\
  Forall (fun i => Sqlite.item_id i < max_int) (Sqlite.items sample_db) /\
  Atoi "2" = Ok 2 /\
  2 <> Sqlite.next_rowid (map Sqlite.item_id (Sqlite.items sample_db)) /\
  Sqlite.getInfoById None
    (committed (Sqlite.saveItem Sqlite.no_faults sample_db "tent" "outdoor" "t.jpg")) "2"
  = Sqlite.getInfoById None sample_db "2".
Proof.
  assert (Hnd : NoDup (map Sqlite.category_id (Sqlite.categories sample_db))).
  { simpl. apply NoDup_cons. split; [intros H; inversion H|apply NoDup_nil; exact I]. }
  assert (Hb : Forall (fun i => Sqlite.item_id i < max_int) (Sqlite.items sample_db)).
  { repeat constructor. }
  assert (Hne : 2 <> Sqlite.next_rowid (map Sqlite.item_id (Sqlite.items sample_db))).
  { vm_compute. discriminate. }
  split; [exact Hnd|]. split; [reflexivity|]. split; [exact Hb|].
  split; [reflexivity|]. split; [exact Hne|].
  apply (saveItem_keeps_lookups Sqlite.no_faults sample_db "tent" "outdoor" "t.jpg"
           "2" 2 Hnd eq_refl Hb eq_refl Hne).
Defined.

Lemma find_pairs_other (x : Sqlite.item_row) (cs : list Sqlite.category_row) (n : Z) :
  Sqlite.item_id x <> n ->
  List.find (fun r : Sqlite.item_row * Sqlite.category_row => Sqlite.item_id (fst r) =? n)
            (map (pair x) cs) = None.
Proof.
  intros Hne. induction cs as [|c cs IH]; simpl; [reflexivity|].
  destruct (Z.eqb_spec (Sqlite.item_id x) n); [contradiction|exact IH].
Qed.

Lemma find_joined_item (cats : list Sqlite.category_row) (its : list Sqlite.item_row)
    (it : Sqlite.item_row) (c : Sqlite.category_row) :
  NoDup (map Sqlite.category_id cats) ->
  NoDup (map Sqlite.item_id its) ->
  In it its -> In c cats ->
  Sqlite.item_category_id it = Sqlite.category_id c ->
  List.find (fun r : Sqlite.item_row * Sqlite.category_row =>
               Sqlite.item_id (fst r) =? Sqlite.item_id it)
    (Sqlite.joined {| Sqlite.categories := cats; Sqlite.items := its |})
  = Some (it, c).
Proof.
  intros Hcats Hits Hit Hc Heq. unfold Sqlite.joined. simpl.
  induction its as [|x its IH]; [destruct Hit|].
  simpl in Hits. inversion Hits as [|? ? Hx Hrest]; subst.
  rewrite list_elem_of_In in Hx. simpl. rewrite find_app.
  destruct Hit as [->|Hit].
  - rewrite Heq, (filter_unique_id cats c Hcats Hc). simpl.
    rewrite Z.eqb_refl. reflexivity.
  - rewrite find_pairs_other.
    + apply IH; assumption.
    + intros Hid. apply Hx. rewrite Hid. apply in_map. exact Hit.
Qed.

(** X10.  Every stored item can be read by its id.  In a store with
    distinct ids in both tables, for an item row whose category row exists,
    [getInfoById] on the id of the row answers 200 with the name of the
    item, the name of its category and its image name. *)
Theorem getInfoById_stored (db : Sqlite.database) (it : Sqlite.item_row)
    (c : Sqlite.category_row) (id : string) :
  NoDup (map Sqlite.category_id (Sqlite.categories db)) ->
  NoDup (map Sqlite.item_id (Sqlite.items db)) ->
  In it (Sqlite.items db) ->
  In c (Sqlite.categories db) ->
  Sqlite.item_category_id it = Sqlite.category_id c ->
  Atoi id = Ok (Sqlite.item_id it) ->
  Sqlite.getInfoById None db id
  = JSON StatusOK
      (BodyItem {| Name := Sqlite.item_name it;
                   Category := Sqlite.category_name c;
                   ImageName := Sqlite.item_image_name it |}).
Proof.
  intros Hcats Hits Hit Hc Heq Hid.
  unfold Sqlite.getInfoById. rewrite Hid. unfold Sqlite.selectById.
  destruct db as [cats its]. simpl in *.
  rewrite (find_joined_item cats its it c Hcats Hits Hit Hc Heq). reflexivity.
Qed.

Lemma getInfoById_stored_witness :
  Sqlite.getInfoById None sample_db "2"
  = JSON StatusOK
      (BodyItem {| Name := "scarf"; Category := "fashion"; ImageName := "def.jpg" |}).
Proof.
  apply (getInfoById_stored sample_db
           {| Sqlite.item_id := 2; Sqlite.item_name := "scarf";
              Sqlite.item_image_name := "def.jpg"; Sqlite.item_category_id := 1 |}
           {| Sqlite.category_id := 1; Sqlite.category_name := "fashion" |} "2").
  - simpl. apply NoDup_cons. split; [intros H; inversion H|apply NoDup_nil; exact I].
  - simpl. apply NoDup_cons. split.
    + intros H. apply list_elem_of_In in H. destruct H as [H|[]]. discriminate H.
    + apply NoDup_cons. split; [intros H; inversion H|apply NoDup_nil; exact I].
  - simpl. right. left. reflexivity.
  - simpl. left. reflexivity.
  - reflexivity.
  - reflexivity.
Defined.

(** X7.  Every store the program builds is well-formed.  Starting from an
    empty database, after any sequence of calls of [saveItem], each with any
    arguments and any failures of the driver, the committed content has
    distinct ids in both tables, a category row for every item, and at most
    one category row of each name. *)
Theorem reachable_well_formed (reqs : list request) :
  well_formed (run reqs Sqlite.empty_db).
Proof.
  unfold run. generalize empty_db_well_formed.
  generalize Sqlite.empty_db as db. induction reqs as [|q reqs IH]; intros db Hwf.
  - exact Hwf.
  - simpl. apply IH. apply saveItem_keeps_well_formed. exact Hwf.
Qed.

(** [saveItem] when no call of the driver fails. *)
Lemma saveItem_found (db : Sqlite.database) (name c fileName : string)
    (row : Sqlite.category_row) :
  List.find (fun r => String.eqb (Sqlite.category_name r) c) (Sqlite.categories db)
  = Some row ->
  Sqlite.saveItem Sqlite.no_faults db name c fileName
  = ({| Sqlite.categories := Sqlite.categories db;
        Sqlite.items :=
          Sqlite.items db ++
          [{| Sqlite.item_id := Sqlite.next_rowid (map Sqlite.item_id (Sqlite.items db));
              Sqlite.item_name := name;
              Sqlite.item_image_name := fileName;
              Sqlite.item_category_id := Sqlite.category_id row |}] |},
     [Sqlite.LogPrint "error while rolling back transaction" ErrTxDone],
     None).
Proof.
  intros Hf. unfold Sqlite.saveItem, Sqlite.saveItem_body.
  change (Sqlite.Begin (Sqlite.begin_fault Sqlite.no_faults) db) with (Ok (begun db)).
  cbv iota. rewrite (checkCategoryId_found db c row Hf). reflexivity.
Qed.

Lemma saveItem_new (db : Sqlite.database) (name c fileName : string) :
  List.find (fun r => String.eqb (Sqlite.category_name r) c) (Sqlite.categories db)
  = None ->
  let categoryId := Sqlite.next_rowid (map Sqlite.category_id (Sqlite.categories db)) in
  Sqlite.saveItem Sqlite.no_faults db name c fileName
  = ({| Sqlite.categories :=
          Sqlite.categories db ++
          [{| Sqlite.category_id := categoryId; Sqlite.category_name := c |}];
        Sqlite.items :=
          Sqlite.items db ++
          [{| Sqlite.item_id := Sqlite.next_rowid (map Sqlite.item_id (Sqlite.items db));
              Sqlite.item_name := name;
              Sqlite.item_image_name := fileName;
              Sqlite.item_category_id := categoryId |}] |},
     [Sqlite.LogPrint "error while rolling back transaction" ErrTxDone],
     None).
Proof.
  intros Hf categoryId. unfold Sqlite.saveItem, Sqlite.saveItem_body.
  change (Sqlite.Begin (Sqlite.begin_fault Sqlite.no_faults) db) with (Ok (begun db)).
  cbv iota. rewrite (checkCategoryId_new db c Hf). reflexivity.
Qed.

(** X12.  Two items of one category share its row.  From a store with at
    most one category row named [c], and with no failure of the driver,
    two calls of [saveItem] with the category [c] leave exactly one row
    named [c]; the second call adds no category row, and both new items
    carry the id of that row. *)
Theorem saveItem_twice_one_category (db : Sqlite.database)
    (name1 name2 c file1 file2 : string) :
  (count_named c (Sqlite.categories db) <= 1)%nat ->
  let r1 := Sqlite.saveItem Sqlite.no_faults db name1 c file1 in
  let r2 := Sqlite.saveItem Sqlite.no_faults (committed r1) name2 c file2 in
  exists categoryId i1 i2,
    returned r1 = None /\ returned r2 = None /\
    Sqlite.categories (committed r2) = Sqlite.categories (committed r1) /\
    count_named c (Sqlite.categories (committed r2)) = 1%nat /\
    In {| Sqlite.category_id := categoryId; Sqlite.category_name := c |}
       (Sqlite.categories (committed r2)) /\
    Sqlite.items (committed r2)
    = Sqlite.items db ++
      [{| Sqlite.item_id := i1; Sqlite.item_name := name1;
          Sqlite.item_image_name := file1; Sqlite.item_category_id := categoryId |};
       {| Sqlite.item_id := i2; Sqlite.item_name := name2;
          Sqlite.item_image_name := file2; Sqlite.item_category_id := categoryId |}].
Proof.
  intros Hle r1 r2. subst r2 r1.
  destruct (List.find (fun r => String.eqb (Sqlite.category_name r) c)
                      (Sqlite.categories db)) as [row|] eqn:Hf.
  - rewrite (saveItem_found db name1 c file1 row Hf).
    unfold committed, returned. cbn [fst snd].
    erewrite (saveItem_found _ name2 c file2 row) by exact Hf.
    exists (Sqlite.category_id row). eexists _, _. cbn [fst snd].
    cbn [Sqlite.categories Sqlite.items].
    repeat split.
    + apply count_named_find_Some in Hf. lia.
    + apply find_some in Hf as [Hin Hname]. apply String.eqb_eq in Hname.
      destruct row as [i n]. simpl in *. subst n. exact Hin.
    + rewrite <- app_assoc. reflexivity.
  - rewrite (saveItem_new db name1 c file1 Hf).
    unfold committed, returned. cbn [fst snd].
    erewrite saveItem_found.
    2:{ cbn [Sqlite.categories]. rewrite (find_app_None _ _ _ Hf). simpl.
        rewrite String.eqb_refl. reflexivity. }
    eexists _, _, _. cbn [fst snd Sqlite.categories Sqlite.items Sqlite.category_id].
    repeat split.
    + rewrite count_named_app, (count_named_find_None _ _ Hf).
      unfold count_named. simpl. rewrite String.eqb_refl. reflexivity.
    + apply in_or_app. right. left. reflexivity.
    + rewrite <- app_assoc. reflexivity.
Qed.

Lemma saveItem_twice_one_category_witness :
  (count_named "outdoor" (Sqlite.categories sample_db) <= 1)%nat /\
  exists categoryId i1 i2,
    Sqlite.items
      (committed (Sqlite.saveItem Sqlite.no_faults
                    (committed (Sqlite.saveItem Sqlite.no_faults sample_db
                                  "tent" "outdoor" "t.jpg"))
                    "stove" "outdoor" "s.jpg"))
    = Sqlite.items sample_db ++
      [{| Sqlite.item_id := i1; Sqlite.item_name := "tent";
          Sqlite.item_image_name := "t.jpg"; Sqlite.item_category_id := categoryId |};
       {| Sqlite.item_id := i2; Sqlite.item_name := "stove";
          Sqlite.item_image_name := "s.jpg"; Sqlite.item_category_id := categoryId |}].
Proof.
  split; [vm_compute; lia|].
  destruct (saveItem_twice_one_category sample_db "tent" "stove" "outdoor" "t.jpg" "s.jpg")
    as [cid [i1 [i2 [_ [_ [_ [_ [_ H]]]]]]]]; [vm_compute; lia|].
  exists cid, i1, i2. exact H.
Defined.

(** ** The SQLite backend: addItem *)


(** X13.  An upload, end to end.  In a store with distinct category ids,
    when nothing fails, [addItem] answers 200 with "item received: " and the
    name; afterwards [getInfoById] on the rowid of the new item answers with
    the name, the category and the image name [hex(sha256(bytes)) + ".jpg"],
    and [getImg] on that image name answers with the uploaded bytes. *)
Theorem addItem_end_to_end (fs : filesystem) (db : Sqlite.database)
    (name category : string) (bytes : list byte) (id : string) :
  NoDup (map Sqlite.category_id (Sqlite.categories db)) ->
  Atoi id = Ok (Sqlite.next_rowid (map Sqlite.item_id (Sqlite.items db))) ->
  let ref := hex (SHA256.Sum256 bytes) +:+ ".jpg" in
  let r := Sqlite.addItem io_ok Sqlite.no_faults fs db name category (Some bytes) in
  snd r = JSON StatusOK (BodyResponse {| Message := "item received: " +:+ name |}) /\
  Sqlite.getInfoById None (snd (fst r)) id
  = JSON StatusOK
      (BodyItem {| Name := name; Category := category; ImageName := ref |}) /\
  getImg (fst (fst r)) ref = File bytes.
Proof.
  intros Hnd Hid ref r. subst r. unfold Sqlite.addItem.
  rewrite saveImage_io_ok. fold (fileName_of (SHA256.Sum256 bytes)) in ref.
  assert (Himg : getImg (WriteFile fs (imagePath_of ref) bytes) ref = File bytes).
  { apply getImg_stored_name;
      [apply fileName_no_slash|apply HasSuffix_app|apply ReadFile_WriteFile]. }
  fold ref. clearbody ref.
  unfold Sqlite.getInfoById. rewrite Hid.
  destruct (List.find (fun r => String.eqb (Sqlite.category_name r) category)
                      (Sqlite.categories db)) as [row|] eqn:Hf.
  - rewrite (saveItem_found db name category ref row Hf). cbn [fst snd].
    apply find_some in Hf as [Hin Hname]. apply String.eqb_eq in Hname.
    rewrite (selectById_new_item (Sqlite.categories db) (Sqlite.items db) row
               name ref Hnd Hin).
    rewrite Hname. repeat split. exact Himg.
  - rewrite (saveItem_new db name category ref Hf). cbn [fst snd].
    set (row := {| Sqlite.category_id :=
                     Sqlite.next_rowid (map Sqlite.category_id (Sqlite.categories db));
                   Sqlite.category_name := category |}).
    change (Sqlite.next_rowid (map Sqlite.category_id (Sqlite.categories db)))
      with (Sqlite.category_id row).
    rewrite (selectById_new_item (Sqlite.categories db ++ [row]) (Sqlite.items db) row
               name ref).
    + repeat split. exact Himg.
    + apply NoDup_category_ids_new. exact Hnd.
    + apply in_or_app. right. left. reflexivity.
Qed.

Lemma addItem_end_to_end_witness :
  NoDup (map Sqlite.category_id (Sqlite.categories sample_db)) /\
  Atoi "3" = Ok (Sqlite.next_rowid (map Sqlite.item_id (Sqlite.items sample_db))) /\
  getImg (fst (fst (Sqlite.addItem io_ok Sqlite.no_faults sample_fs sample_db
                      "tent" "outdoor" (Some [x61; x62; x63]))))
         (hex (SHA256.Sum256 [x61; x62; x63]) +:+ ".jpg")
  = File [x61; x62; x63].
Proof.
  assert (Hnd : NoDup (map Sqlite.category_id (Sqlite.categories sample_db))).
  { simpl. apply NoDup_cons. split; [intros H; inversion H|apply NoDup_nil; exact I]. }
  split; [exact Hnd|]. split; [reflexivity|].
  apply (addItem_end_to_end sample_fs sample_db "tent" "outdoor" [x61; x62; x63] "3"
           Hnd eq_refl).
Defined.


(** ** More on the legacy backend *)

Lemma json_string_ascii (s : string) : ascii_only s = true -> json_string s = s.
Proof.
  induction s as [|c s IH]; simpl; [reflexivity|].
  intros H. apply andb_true_iff in H as [Hc Hs]. rewrite Hc, (IH Hs). reflexivity.
Qed.

Lemma json_string_1 (c : ascii) (r : string) :
  between 0 127 c = true -> json_string (String c r) = String c (json_string r).
Proof. intros H. simpl. rewrite H. reflexivity. Qed.

Lemma json_string_2 (c1 c2 : ascii) (r : string) :
  between 0 127 c1 = false ->
  between 194 223 c1 && second_ok c1 c2 = true ->
  json_string (String c1 (String c2 r)) = String c1 (String c2 (json_string r)).
Proof. intros H1 H2. simpl. rewrite H1, H2. reflexivity. Qed.

Lemma json_string_3 (c1 c2 c3 : ascii) (r : string) :
  between 0 127 c1 = false ->
  between 194 223 c1 && second_ok c1 c2 = false ->
  between 224 239 c1 && second_ok c1 c2 && between 128 191 c3 = true ->
  json_string (String c1 (String c2 (String c3 r)))
  = String c1 (String c2 (String c3 (json_string r))).
Proof. intros H1 H2 H3. simpl. rewrite H1, H2, H3. reflexivity. Qed.

Lemma json_string_4 (c1 c2 c3 c4 : ascii) (r : string) :
  between 0 127 c1 = false ->
  between 194 223 c1 && second_ok c1 c2 = false ->
  between 224 239 c1 && second_ok c1 c2 && between 128 191 c3 = false ->
  between 240 244 c1 && second_ok c1 c2 && between 128 191 c3 && between 128 191 c4
  = true ->
  json_string (String c1 (String c2 (String c3 (String c4 r))))
  = String c1 (String c2 (String c3 (String c4 (json_string r)))).
Proof. intros H1 H2 H3 H4. simpl. rewrite H1, H2, H3, H4. reflexivity. Qed.

Lemma json_string_replacement (r : string) :
  json_string (replacement r) = replacement (json_string r).
Proof. reflexivity. Qed.

(** Writing and reading a second time changes nothing more. *)
Lemma json_string_idempotent (s : string) :
  json_string (json_string s) = json_string s.
Proof.
  remember (String.length s) as n eqn:Hn.
  revert s Hn. induction n as [n IH] using lt_wf_ind. intros s Hn.
  assert (Hrec : forall t, (String.length t < n)%nat ->
                           json_string (json_string t) = json_string t).
  { intros t Ht. exact (IH _ Ht t eq_refl). }
  clear IH.
  destruct s as [|c1 r1]; [reflexivity|]. simpl in Hn.
  assert (Hbad : json_string (replacement (json_string r1))
                 = replacement (json_string r1)).
  { rewrite json_string_replacement, Hrec by lia. reflexivity. }
  destruct (between 0 127 c1) eqn:E1.
  { rewrite (json_string_1 c1 r1 E1), (json_string_1 _ _ E1), Hrec by lia.
    reflexivity. }
  destruct r1 as [|c2 r2].
  { simpl. rewrite E1. reflexivity. }
  simpl in Hn.
  destruct (between 194 223 c1 && second_ok c1 c2) eqn:E2.
  { rewrite (json_string_2 c1 c2 r2 E1 E2), (json_string_2 _ _ _ E1 E2), Hrec by lia.
    reflexivity. }
  destruct r2 as [|c3 r3].
  { change (json_string (String c1 (String c2 "")))
      with (if between 0 127 c1 then String c1 (json_string (String c2 ""))
            else if between 194 223 c1 && second_ok c1 c2
                 then String c1 (String c2 (json_string ""))
                 else replacement (json_string (String c2 ""))).
    rewrite E1, E2. exact Hbad. }
  simpl in Hn.
  destruct (between 224 239 c1 && second_ok c1 c2 && between 128 191 c3) eqn:E3.
  { rewrite (json_string_3 c1 c2 c3 r3 E1 E2 E3), (json_string_3 _ _ _ _ E1 E2 E3),
      Hrec by lia. reflexivity. }
  destruct r3 as [|c4 r4].
  { change (json_string (String c1 (String c2 (String c3 ""))))
      with (if between 0 127 c1
            then String c1 (json_string (String c2 (String c3 "")))
            else if between 194 223 c1 && second_ok c1 c2
                 then String c1 (String c2 (json_string (String c3 "")))
                 else if between 224 239 c1 && second_ok c1 c2 && between 128 191 c3
                      then String c1 (String c2 (String c3 (json_string "")))
                      else replacement (json_string (String c2 (String c3 "")))).
    rewrite E1, E2, E3. exact Hbad. }
  simpl in Hn.
  destruct (between 240 244 c1 && second_ok c1 c2 && between 128 191 c3
            && between 128 191 c4) eqn:E4.
  { rewrite (json_string_4 c1 c2 c3 c4 r4 E1 E2 E3 E4),
      (json_string_4 _ _ _ _ _ E1 E2 E3 E4), Hrec by lia. reflexivity. }
  change (json_string (String c1 (String c2 (String c3 (String c4 r4)))))
    with (if between 0 127 c1
          then String c1 (json_string (String c2 (String c3 (String c4 r4))))
          else if between 194 223 c1 && second_ok c1 c2
               then String c1 (String c2 (json_string (String c3 (String c4 r4))))
               else if between 224 239 c1 && second_ok c1 c2 && between 128 191 c3
                    then String c1 (String c2 (String c3 (json_string (String c4 r4))))
                    else if between 240 244 c1 && second_ok c1 c2
                            && between 128 191 c3 && between 128 191 c4
                         then String c1 (String c2 (String c3 (String c4 (json_string r4))))
                         else replacement (json_string (String c2 (String c3 (String c4 r4))))).
  rewrite E1, E2, E3, E4. exact Hbad.
Qed.

Lemma json_item_decoded (i : Item) : decoded (json_item i).
Proof.
  unfold decoded, json_item. simpl. rewrite !json_string_idempotent. reflexivity.
Qed.

Lemma hex_digit_ascii (n : N) : between 0 127 (hex_digit n) = true.
Proof.
  unfold hex_digit. generalize (N.to_nat n). intros m.
  do 16 (destruct m as [|m]; [reflexivity|]). reflexivity.
Qed.

Lemma fileName_ascii (hash : list byte) : ascii_only (fileName_of hash) = true.
Proof.
  unfold fileName_of. induction hash as [|b bs IH]; [reflexivity|].
  simpl. rewrite !hex_digit_ascii. exact IH.
Qed.

Lemma len_app_one {A : Type} (l : list A) (x : A) : len (l ++ [x]) = len l + 1.
Proof. unfold len. rewrite length_app. simpl. lia. Qed.

Lemma len_map {A B : Type} (g : A -> B) (l : list A) : len (map g l) = len l.
Proof. unfold len. rewrite length_map. reflexivity. Qed.

Lemma getInfo_at_nth (l : list Item) (itemId : Z) (item : Item) :
  1 <= itemId <= len l ->
  nth_error l (Z.to_nat (itemId - 1)) = Some item ->
  Legacy.getInfo_at (Legacy.Stored l) itemId = JSON StatusOK (BodyItem item).
Proof.
  intros Hr Hn. destruct (getInfo_at_in_range l itemId Hr) as [item' [Hn' Hg]].
  rewrite Hg. congruence.
Qed.

Lemma saveItem_written (l : list Item) (name category fileName : string) :
  Legacy.saveItem Legacy.Written (Legacy.Stored l) name category fileName
  = (Legacy.Stored
       (map json_item
          (l ++ [{| Name := name; Category := category; ImageName := fileName |}])),
     None).
Proof. reflexivity. Qed.

(** X15.  An item saved is the last of the list.  When [items.json] holds
    the list [l] and the write succeeds, [saveItem] returns nil and
    [getInfo] on the id [len l + 1] answers 200 with the new record as JSON
    hands it back: byte for byte when its strings are ASCII, and in general
    with U+FFFD for each byte that is not valid UTF-8. *)
Theorem saveItem_then_getInfo (l : list Item)
    (name category fileName : string) (id : string) :
  Atoi id = Ok (len l + 1) ->
  let item := {| Name := name; Category := category; ImageName := fileName |} in
  let saved := Legacy.saveItem Legacy.Written (Legacy.Stored l) name category fileName in
  snd saved = None /\
  Legacy.getInfo (fst saved) id = JSON StatusOK (BodyItem (json_item item)) /\
  (ascii_only name = true -> ascii_only category = true ->
   ascii_only fileName = true -> json_item item = item).
Proof.
  intros Hid item saved. subst saved. rewrite saveItem_written. cbn [fst snd].
  split; [reflexivity|]. split.
  - unfold Legacy.getInfo. rewrite Hid. fold item.
    apply getInfo_at_nth.
    + rewrite len_map, len_app_one. pose proof (Zle_0_nat (length l)). unfold len. lia.
    + replace (Z.to_nat (len l + 1 - 1)) with (length l) by (unfold len; lia).
      rewrite nth_error_map, nth_error_app2, Nat.sub_diag by lia. reflexivity.
  - intros Hn Hc Hf. unfold json_item, item. simpl.
    rewrite !json_string_ascii by assumption. reflexivity.
Qed.

Lemma saveItem_then_getInfo_witness :
  Atoi "3" = Ok (len [jacket; scarf] + 1) /\
  Legacy.getInfo
    (fst (Legacy.saveItem Legacy.Written (Legacy.Stored [jacket; scarf])
            "tent" "outdoor" "t.jpg")) "3"
  = JSON StatusOK
      (BodyItem (json_item {| Name := "tent"; Category := "outdoor";
                              ImageName := "t.jpg" |})).
Proof.
  split; [reflexivity|].
  apply (saveItem_then_getInfo [jacket; scarf] "tent" "outdoor" "t.jpg" "3" eq_refl).
Defined.

(** X16.  Saving an item keeps the earlier ones in place.  When the records
    of [items.json] are as JSON decodes them, after a successful [saveItem]
    every id from 1 to the former length gets the same answer from
    [getInfo] as before, and the records of the new file are again as JSON
    decodes them. *)
Theorem saveItem_keeps_positions (l : list Item)
    (name category fileName : string) (id : string) (itemId : Z) :
  Forall decoded l ->
  Atoi id = Ok itemId ->
  1 <= itemId <= len l ->
  let saved := Legacy.saveItem Legacy.Written (Legacy.Stored l) name category fileName in
  Legacy.getInfo (fst saved) id = Legacy.getInfo (Legacy.Stored l) id /\
  exists l', fst saved = Legacy.Stored l' /\ Forall decoded l' /\ len l' = len l + 1.
Proof.
  intros Hdec Hid Hr saved. subst saved. rewrite saveItem_written. cbn [fst].
  split.
  - unfold Legacy.getInfo. rewrite Hid.
    destruct (getInfo_at_in_range l itemId Hr) as [item [Hn Hg]]. rewrite Hg.
    apply getInfo_at_nth.
    + rewrite len_map, len_app_one. lia.
    + assert (Hlt : (Z.to_nat (itemId - 1) < length l)%nat) by (unfold len in Hr; lia).
      rewrite nth_error_map, nth_error_app1, Hn by exact Hlt. simpl. f_equal.
      apply nth_error_In in Hn. rewrite Forall_forall in Hdec.
      apply Hdec. apply list_elem_of_In. exact Hn.
  - eexists. split; [reflexivity|]. split.
    + apply Forall_forall. intros i Hi. apply list_elem_of_In in Hi.
      apply in_map_iff in Hi as [j [<- _]]. apply json_item_decoded.
    + rewrite len_map, len_app_one. reflexivity.
Qed.

Lemma saveItem_keeps_positions_witness :
  Forall decoded [jacket; scarf] /\
  Atoi "2" = Ok 2 /\
  1 <= 2 <= len [jacket; scarf] /\
  Legacy.getInfo
    (fst (Legacy.saveItem Legacy.Written (Legacy.Stored [jacket; scarf])
            "tent" "outdoor" "t.jpg")) "2"
  = Legacy.getInfo (Legacy.Stored [jacket; scarf]) "2".
Proof.
  assert (Hd : Forall decoded [jacket; scarf]).
  { repeat constructor. }
  assert (Hr : 1 <= 2 <= len [jacket; scarf]) by (vm_compute; split; discriminate).
  split; [exact Hd|]. split; [reflexivity|]. split; [exact Hr|].
  apply (saveItem_keeps_positions [jacket; scarf] "tent" "outdoor" "t.jpg" "2" 2
           Hd eq_refl Hr).
Defined.

(** X17.  The legacy backend never creates [items.json].  While the file is
    missing, unreadable or not a JSON document, [saveItem] fails before it
    writes, whatever the write would have done; so [addItem] never answers
    200 and leaves the file as it is, request after request. *)
Theorem addItem_needs_items_file (io : image_io) (w : Legacy.write_outcome)
    (fs : filesystem) (f : Legacy.items_file)
    (name category : string) (image : option (list byte)) :
  (forall l, f <> Legacy.Stored l) ->
  let r := Legacy.addItem io w fs f name category image in
  snd (fst r) = f /\
  status_of (snd r) = StatusInternalServerError /\
  (forall fileName,
     fst (Legacy.saveItem w f name category fileName) = f /\
     snd (Legacy.saveItem w f name category fileName) <> None).
Proof.
  intros Hf r. subst r. unfold Legacy.addItem.
  destruct f as [why| |l]; [| |exfalso; exact (Hf l eq_refl)].
  - split; [|split].
    + destruct image as [bytes|]; [|reflexivity].
      destruct (saveImage io fs bytes) as [fs' [fileName [err|]]]; reflexivity.
    + destruct image as [bytes|]; [|reflexivity].
      destruct (saveImage io fs bytes) as [fs' [fileName [err|]]]; reflexivity.
    + intros fileName. split; [reflexivity|discriminate].
  - split; [|split].
    + destruct image as [bytes|]; [|reflexivity].
      destruct (saveImage io fs bytes) as [fs' [fileName [err|]]]; reflexivity.
    + destruct image as [bytes|]; [|reflexivity].
      destruct (saveImage io fs bytes) as [fs' [fileName [err|]]]; reflexivity.
    + intros fileName. split; [reflexivity|discriminate].
Qed.

Lemma addItem_needs_items_file_witness :
  (forall l, Legacy.Unreadable "open items.json: no such file or directory"
             <> Legacy.Stored l) /\
  status_of
    (snd (Legacy.addItem io_ok Legacy.Written sample_fs
            (Legacy.Unreadable "open items.json: no such file or directory")
            "jacket" "fashion" (Some [x61; x62; x63])))
  = StatusInternalServerError.
Proof.
  assert (Hf : forall l, Legacy.Unreadable "open items.json: no such file or directory"
                         <> Legacy.Stored l) by (intros l; discriminate).
  split; [exact Hf|].
  apply (addItem_needs_items_file io_ok Legacy.Written sample_fs _
           "jacket" "fashion" (Some [x61; x62; x63]) Hf).
Defined.


(** X19.  An upload to the legacy backend, end to end.  When [items.json]
    holds the list [l] and nothing fails, [addItem] answers 200 with
    "item received: " and the name; afterwards [getInfo] on the id
    [len l + 1] answers with the name and the category as JSON hands them
    back and the image name [hex(sha256(bytes)) + ".jpg"], and [getImg] on
    that image name answers with the uploaded bytes. *)
Theorem legacy_addItem_end_to_end (fs : filesystem) (l : list Item)
    (name category : string) (bytes : list byte) (id : string) :
  Atoi id = Ok (len l + 1) ->
  let ref := hex (SHA256.Sum256 bytes) +:+ ".jpg" in
  let r := Legacy.addItem io_ok Legacy.Written fs (Legacy.Stored l)
             name category (Some bytes) in
  snd r = Legacy.item_received name /\
  Legacy.getInfo (snd (fst r)) id
  = JSON StatusOK
      (BodyItem {| Name := json_string name; Category := json_string category;
                   ImageName := ref |}) /\
  getImg (fst (fst r)) ref = File bytes.
Proof.
  intros Hid ref r. subst r. unfold Legacy.addItem.
  rewrite saveImage_io_ok, saveItem_written. cbn [fst snd].
  fold (fileName_of (SHA256.Sum256 bytes)) in ref. fold ref.
  split; [reflexivity|]. split.
  - unfold Legacy.getInfo. rewrite Hid.
    apply getInfo_at_nth.
    + rewrite len_map, len_app_one. pose proof (Zle_0_nat (length l)). unfold len. lia.
    + replace (Z.to_nat (len l + 1 - 1)) with (length l) by (unfold len; lia).
      rewrite nth_error_map, nth_error_app2, Nat.sub_diag by lia.
      simpl. unfold json_item. simpl.
      rewrite (json_string_ascii ref) by apply fileName_ascii. reflexivity.
  - apply getImg_stored_name;
      [apply fileName_no_slash|apply HasSuffix_app|apply ReadFile_WriteFile].
Qed.

Lemma legacy_addItem_end_to_end_witness :
  Atoi "3" = Ok (len [jacket; scarf] + 1) /\
  getImg (fst (fst (Legacy.addItem io_ok Legacy.Written sample_fs
                      (Legacy.Stored [jacket; scarf])
                      "tent" "outdoor" (Some [x61; x62; x63]))))
         (hex (SHA256.Sum256 [x61; x62; x63]) +:+ ".jpg")
  = File [x61; x62; x63].
Proof.
  split; [reflexivity|].
  apply (legacy_addItem_end_to_end sample_fs [jacket; scarf] "tent" "outdoor"
           [x61; x62; x63] "3" eq_refl).
Defined.
